(** * win_installer: a shallow embedding of the Windows installer build script

    The script is sequential glue around external tools.  Its pure parts
    (string handling, list and set manipulation, template filling) are
    embedded as functions; everything that touches the outside world (the
    file system, child processes, the package index, the network) goes
    through a small state-and-exception monad whose state records, in order,
    the requests the script made, and whose answers come from a [world]
    record of oracles. *)

From Stdlib Require Import ZArith String Ascii List.
From stdpp Require Import gmap strings list sets.

Open Scope string_scope.
Open Scope list_scope.

(** ** Exceptions and results *)

(** The exceptions of the script.  [OSError] stands for the failures of
    file operations and of starting a child, [HTTPError] for the failure
    of a request to the package index or to the download server. *)
Inductive exn : Type :=
| SystemExit (msg : string)
| KeyError (key : string)
| ValueError (detail : string)
| TypeError (detail : string)
| LookupError (detail : string)
| IndexError (detail : string)
| OSError (detail : string)
| CalledProcessError (returncode : Z) (cmd : list string)
| HTTPError (detail : string).

(** A computation either returns a value or raises. *)
Inductive outcome (A : Type) : Type :=
| Done (a : A)
| Raised (e : exn).
Arguments Done {A} a.
Arguments Raised {A} e.

(** ** Python string primitives used by the script *)

Module Py.

(** [s[n:]] *)
Fixpoint skip (n : nat) (s : string) : string :=
  match n, s with
  | O, _ => s
  | S n', String _ s' => skip n' s'
  | S _, EmptyString => EmptyString
  end.

(** [s.partition(sep)]: split at the first occurrence of [sep]; when
    [sep] does not occur the result is [(s, '', '')]. *)
Fixpoint partition (sep s : string) : string * string * string :=
  if String.prefix sep s then (EmptyString, sep, skip (String.length sep) s)
  else match s with
       | EmptyString => (EmptyString, EmptyString, EmptyString)
       | String c s' =>
           let '(head, mid, tail) := partition sep s' in
           (String c head, mid, tail)
       end.

(** [s.endswith(suffix)] *)
Fixpoint endswith (s suffix : string) : bool :=
  if String.eqb s suffix then true
  else match s with
       | EmptyString => false
       | String _ s' => endswith s' suffix
       end.

(** [sep.join(l)] *)
Fixpoint join (sep : string) (l : list string) : string :=
  match l with
  | [] => EmptyString
  | [x] => x
  | x :: l' => x +:+ sep +:+ join sep l'
  end.

(** [s.split(c)[-1]] for a one-character separator. *)
Fixpoint split_last_go (c : ascii) (cur s : string) : string :=
  match s with
  | EmptyString => cur
  | String x s' =>
      if Ascii.eqb x c then split_last_go c EmptyString s'
      else split_last_go c (cur +:+ String x EmptyString) s'
  end.

Definition split_last (c : ascii) (s : string) : string :=
  split_last_go c EmptyString s.

(** The line boundaries of [str.splitlines] that exist in Latin-1 text:
    LF, VT, FF, CR, FS, GS, RS and NEL. *)
Definition is_linebreak (c : ascii) : bool :=
  match nat_of_ascii c with
  | 10 | 11 | 12 | 13 | 28 | 29 | 30 | 133 => true
  | _ => false
  end.

Definition CR : ascii := ascii_of_nat 13.
Definition LF : ascii := ascii_of_nat 10.

(** [s.splitlines()]: CR LF counts as one boundary and there is no empty
    last line after a final boundary. *)
Fixpoint splitlines_go (after_cr : bool) (cur s : string) : list string :=
  match s with
  | EmptyString => if String.eqb cur EmptyString then [] else [cur]
  | String c s' =>
      if after_cr && Ascii.eqb c LF then splitlines_go false cur s'
      else if is_linebreak c
           then cur :: splitlines_go (Ascii.eqb c CR) EmptyString s'
           else splitlines_go false (cur +:+ String c EmptyString) s'
  end.

Definition splitlines (s : string) : list string :=
  splitlines_go false EmptyString s.

(** [c.isdigit()] for a Latin-1 character. *)
Definition is_digit (c : ascii) : bool :=
  let n := nat_of_ascii c in ((48 <=? n) && (n <=? 57))%nat.

(** A replacement field that asks for a positional argument: an empty
    field or a number. *)
Definition is_positional (name : string) : bool :=
  forallb is_digit (list_ascii_of_string name).

(** [template.format] on keyword arguments only.  Literal text is
    copied, a doubled brace stands for one brace, and the text between
    a pair of braces is a replacement field: an empty or numeric field
    asks for a positional argument, of which there is none, any other
    field is looked up among the keyword arguments, and an opening
    brace inside a field is an error.  The fields of the configuration
    template are plain names; a field that holds [.], [[], [!] or [:]
    (attribute access, indexing, a conversion, a format specification)
    is outside this model.  [field] holds the text read so far inside a
    pair of braces. *)
Fixpoint format_go (kw : gmap string string) (field : option string)
    (s : string) : outcome string :=
  match s with
  | EmptyString =>
      match field with
      | None => Done EmptyString
      | Some _ => Raised (ValueError "expected '}' before end of string")
      end
  | String c s' =>
      match field with
      | None =>
          if Ascii.eqb c "{"
          then match s' with
               | EmptyString =>
                   Raised (ValueError "Single '{' encountered in format string")
               | String c' s'' =>
                   if Ascii.eqb c' "{"
                   then match format_go kw None s'' with
                        | Done r => Done (String c r)
                        | Raised e => Raised e
                        end
                   else format_go kw (Some EmptyString) s'
               end
          else if Ascii.eqb c "}"
               then match s' with
                    | EmptyString =>
                        Raised (ValueError
                                  "Single '}' encountered in format string")
                    | String c' s'' =>
                        if Ascii.eqb c' "}"
                        then match format_go kw None s'' with
                             | Done r => Done (String c r)
                             | Raised e => Raised e
                             end
                        else Raised (ValueError
                                       "Single '}' encountered in format string")
                    end
               else match format_go kw None s' with
                    | Done r => Done (String c r)
                    | Raised e => Raised e
                    end
      | Some name =>
          if Ascii.eqb c "}"
          then if is_positional name
               then Raised (IndexError "tuple index out of range")
               else match kw !! name with
                    | None => Raised (KeyError name)
                    | Some v =>
                        match format_go kw None s' with
                        | Done r => Done (v +:+ r)
                        | Raised e => Raised e
                        end
                    end
          else if Ascii.eqb c "{"
               then Raised (ValueError "unexpected '{' in field name")
               else format_go kw (Some (name +:+ String c EmptyString)) s'
      end
  end.

Definition format (template : string) (kw : gmap string string)
    : outcome string :=
  format_go kw None template.

(** [bytes.decode('latin1')]: every byte is the code point of the same
    number. *)
Definition decode_latin1 (b : list Byte.byte) : string :=
  string_of_list_byte b.

End Py.

(** The package name of a requirement line: [line.partition('==')[0]]. *)
Definition name_of (line : string) : string := (Py.partition "==" line).1.1.

Definition version_of (line : string) : string := (Py.partition "==" line).2.

(** ** Requests and the outside world *)

(** What the script asks of the world, in the order it asks. *)
Inductive event : Type :=
| EvMkdtemp (path : string)
| EvRmtree (path : string)
| EvOpenRead (path : string)
| EvSpawn (cmd : list string)
| EvYargGet (name : string)
| EvHttpGet (url : string)
| EvWrite (path encoding text : string)
| EvWriteBytes (path : string) (data : list Byte.byte)
| EvUnzip (filename target_directory : string)
| EvCopy (src dst : string).

(** [subprocess.CompletedProcess]: the exit status and the captured
    standard output of a child that could be started. *)
Record completed : Type := Completed {
  returncode : Z;
  proc_stdout : list Byte.byte
}.

(** A release file of a package on the index. *)
Record release : Type := Release { package_type : string }.

(** [yarg]'s package object: [release(version)] is [None] for a version
    the index does not know. *)
Record package : Type := Package {
  package_release : string → option (list release)
}.

(** A response read as a stream ([requests.get(url, stream=True)]): the
    chunks of the body that arrive, in order, and whether the transfer
    ran to its end or broke off after them. *)
Record response : Type := Response {
  chunks : list (list Byte.byte);
  complete : bool
}.

(** Iteration order of a Python [set]: some enumeration of its elements,
    each once.  The order is not fixed by the language; for strings it
    changes with the hash seed of the interpreter process. *)
Record set_order : Type := SetOrder {
  iter : gset string → list string;
  iter_perm : ∀ X, iter X ≡ₚ elements X
}.

(** The environment of one run.  Each oracle sees the requests made so
    far, so an answer may depend on everything that happened before.
    [None] stands for the failure of the operation itself (the exception
    each wrapper below raises). *)
Record world : Type := World {
  sys_executable : string;
  path_join : string → list string → string;
  abspath : string → string;
  dirname : string → string;
  set_iteration : set_order;
  mkdtemp : list event → string → option string;
  rmtree_ok : list event → string → bool;
  read_about : list event → string → option (gmap string string);
  spawn : list event → list string → option completed;
  yarg_get : list event → string → option package;
  http_get : list event → string → option response;
  write_ok : list event → string → bool;
  unzip_ok : list event → string → string → bool;
  copy_ok : list event → string → string → bool
}.

(** ** The monad: requests made so far, text printed so far, exceptions *)

Record state : Type := State {
  trace : list event;
  stdout : list string
}.

Definition init : state := State [] [].

Definition M (A : Type) : Type := state → outcome A * state.

Definition ret {A} (a : A) : M A := fun st => (Done a, st).

Definition raise {A} (e : exn) : M A := fun st => (Raised e, st).

Definition bind {A B} (m : M A) (k : A → M B) : M B :=
  fun st =>
    match m st with
    | (Done a, st') => k a st'
    | (Raised e, st') => (Raised e, st')
    end.

Notation "x <- m ;; k" := (bind m (fun x => k))
  (at level 100, m at next level, right associativity).
Notation "m ;;; k" := (bind m (fun _ => k))
  (at level 100, right associativity).

Definition record (e : event) (st : state) : state :=
  State (trace st ++ [e]) (stdout st).

(** [print(text, end=e)] *)
Definition print_end (text e : string) : M unit :=
  fun st => (Done tt, State (trace st) (stdout st ++ [text +:+ e])).

Definition NL : string := String Py.LF EmptyString.

Definition print (text : string) : M unit := print_end text NL.

(** A request to the world: the request is recorded, then the answer is
    returned or the operation's exception raised. *)
Definition request {A} (e : event) (answer : option A) (failure : exn) : M A :=
  fun st =>
    match answer with
    | Some a => (Done a, record e st)
    | None => (Raised failure, record e st)
    end.

Definition guard_ok (b : bool) : option unit := if b then Some tt else None.

(** Ask the world: the oracle is consulted on the requests made so far. *)
Definition ask {A} (e : event) (oracle : list event → option A)
    (failure : exn) : M A :=
  fun st => request e (oracle (trace st)) failure st.

(** [d[key]] *)
Definition getitem (d : gmap string string) (key : string) : M string :=
  match d !! key with
  | Some v => ret v
  | None => raise (KeyError key)
  end.

(** [subprocess.run(cmd)]: the child's exit status is returned in the
    result, whatever it is; only a child that cannot be started raises. *)
Definition subprocess_run (w : world) (cmd : list string) : M completed :=
  ask (EvSpawn cmd) (fun tr => spawn w tr cmd) (OSError "cannot start the child process").

(** [subprocess.check_output(cmd)]: a non-zero exit status raises. *)
Definition subprocess_check_output (w : world) (cmd : list string)
    : M (list Byte.byte) :=
  p <- subprocess_run w cmd ;;
  if Z.eqb (returncode p) 0 then ret (proc_stdout p)
  else raise (CalledProcessError (returncode p) cmd).

(** [output.decode(encoding)]; only the codec the script names is modelled. *)
Definition bytes_decode (encoding : string) (b : list Byte.byte) : M string :=
  if String.eqb encoding "latin1" then ret (Py.decode_latin1 b)
  else raise (LookupError encoding).

(** ** The script *)

Definition PYNSIST_CFG_TEMPLATE : string := "
[Application]
name=Mu
version={version}
entry_point=mu.app:run
icon={icon_file}
publisher=Nicholas H.Tollervey
license_file={license_file}

[Command mu-debug]
entry_point=mu.app:debug

[Command pgzrun]
entry_point=pgzero.runner:main

[Python]
version=3.6.3
bitness={bitness}
format=bundled

[Include]
pypi_wheels=
    {pypi_wheels}

packages=
    tkinter
    _tkinter
    turtle
    {packages}

files=lib

[Build]
installer_name={installer_name}
".

Definition URL : string :=
  "https://github.com/mu-editor/mu_tkinter/releases/download/".

Definition ASSETS : gmap string string :=
  <["32" := URL +:+ "0.3/pynsist_tkinter_3.6_32bit.zip"]>
  (<["64" := URL +:+ "0.3/pynsist_tkinter_3.6_64bit.zip"]> ∅).

(** The body is read chunk by chunk into the file opened before the
    first chunk is read.  The one request [EvWriteBytes] stands for the
    file as it is left when it is closed: it holds the non-empty chunks
    that arrived, all of the body or, when the transfer broke off, the
    part received by then.  A failure to open or write the file comes
    before the end of the transfer is seen. *)
Definition download_file (w : world) (url target_directory : string)
    : M string :=
  let local_filename :=
    path_join w target_directory [Py.split_last "/" url] in
  r <- ask (EvHttpGet url) (fun tr => http_get w tr url) (HTTPError url) ;;
  let written := concat (filter (fun chunk => chunk ≠ []) (chunks r)) in
  ask (EvWriteBytes local_filename written)
      (fun tr => guard_ok (write_ok w tr local_filename))
      (OSError local_filename) ;;;
  if complete r then ret local_filename else raise (HTTPError url).

Definition unzip_file (w : world) (filename target_directory : string)
    : M unit :=
  ask (EvUnzip filename target_directory)
      (fun tr => guard_ok (unzip_ok w tr filename target_directory))
      (OSError filename).

Definition create_packaging_venv (w : world) (target_directory name : string)
    : M string :=
  print ("Creating " +:+ name +:+ " virtual environment...") ;;;
  let fullpath := path_join w target_directory [name] in
  subprocess_run w [sys_executable w; "-m"; "venv"; fullpath] ;;;
  ret (path_join w fullpath ["Scripts"; "python.exe"]).

Definition install_mu (w : world) (python repo_root : string) : M unit :=
  print ("Installing mu with " +:+ python +:+ "...") ;;;
  subprocess_run w [python; "-m"; "pip"; "install"; repo_root] ;;;
  ret tt.

Definition pip_freeze (w : world) (python encoding : string)
    : M (list string) :=
  print "Getting frozen requirements..." ;;;
  output <- subprocess_check_output w [python; "-m"; "pip"; "freeze"; "--all"] ;;
  text <- bytes_decode encoding output ;;
  ret (Py.splitlines text).

Definition about_dict (w : world) (repo_root : string)
    : M (gmap string string) :=
  let path := path_join w repo_root ["mu"; "__about__.py"] in
  ask (EvOpenRead path) (fun tr => read_about w tr path) (OSError path).

(** [any(r.package_type == 'wheel' for r in releases)] *)
Definition any_wheel (releases : list release) : bool :=
  existsb (fun r => String.eqb (package_type r) "wheel") releases.

(** The body of the [for] loop of [wheels_in], with the list [wheels]
    built so far. *)
Fixpoint wheels_in_loop (w : world) (requirements wheels : list string)
    : M (list string) :=
  match requirements with
  | [] => ret wheels
  | requirement :: rest =>
      let '(name, _, version) := Py.partition "==" requirement in
      print_end ("  - " +:+ requirement +:+ ": ") EmptyString ;;;
      package <- ask (EvYargGet name) (fun tr => yarg_get w tr name)
                     (HTTPError name) ;;
      match package_release package version with
      | None => raise (TypeError "'NoneType' object is not iterable")
      | Some releases =>
          if any_wheel releases
          then print "ok" ;;; wheels_in_loop w rest (wheels ++ [requirement])
          else print "missing" ;;; wheels_in_loop w rest wheels
      end
  end.

Definition wheels_in (w : world) (requirements : list string)
    : M (list string) :=
  print "Checking for wheel availability at PyPI..." ;;;
  wheels_in_loop w requirements [].

Definition packages_from (o : set_order) (requirements wheels : list string)
    : list string :=
  let rset : gset string := list_to_set requirements in
  let wset : gset string := list_to_set wheels in
  let pset := rset ∖ wset in
  name_of <$> iter o pset.

Definition create_pynsist_cfg_file (w : world)
    (target_directory encoding : string) (kw : gmap string string)
    : M string :=
  let filename := path_join w target_directory ["pynsist.cfg"] in
  match Py.format PYNSIST_CFG_TEMPLATE kw with
  | Raised e => raise e
  | Done pynsist_cfg_payload =>
      ask (EvWrite filename encoding pynsist_cfg_payload)
          (fun tr => guard_ok (write_ok w tr filename))
          (OSError filename) ;;;
      print "Created pynsist.cfg file:" ;;;
      print pynsist_cfg_payload ;;;
      ret filename
  end.

(** [with tempfile.TemporaryDirectory(suffix=...) as work_dir: body]: the
    directory is created on entry, and on exit, whether the body returned
    or raised, its removal is asked for.  A removal that fails raises, in
    place of whatever the body raised, and leaves the directory. *)
Definition with_TemporaryDirectory {A} (w : world) (suffix : string)
    (body : string → M A) : M A :=
  fun st =>
    match mkdtemp w (trace st) suffix with
    | None => (Raised (OSError "mkdtemp"), st)
    | Some work_dir =>
        let '(out, st') := body work_dir (record (EvMkdtemp work_dir) st) in
        if rmtree_ok w (trace st') work_dir
        then (out, record (EvRmtree work_dir) st')
        else (Raised (OSError work_dir), record (EvRmtree work_dir) st')
    end.

(** The requirement lines kept by [run]: all of pip freeze except the
    application's own package. *)
Definition requirements_of (mu_package_name : string) (lines : list string)
    : list string :=
  filter (fun line => name_of line ≠ mu_package_name) lines.

(** [f'{mu_package_name}_{mu_version}_win{bitness}.exe'] *)
Definition installer_name_of (mu_package_name mu_version bitness : string)
    : string :=
  mu_package_name +:+ "_" +:+ mu_version +:+ "_win" +:+ bitness +:+ ".exe".

(** The keyword arguments [run] passes on to the template. *)
Definition cfg_kw (version icon_file license_file bitness pypi_wheels
    packages installer_name : string) : gmap string string :=
  <["version" := version]>
  (<["icon_file" := icon_file]>
  (<["license_file" := license_file]>
  (<["bitness" := bitness]>
  (<["pypi_wheels" := pypi_wheels]>
  (<["packages" := packages]>
  (<["installer_name" := installer_name]> ∅)))))).

Definition SEP : string := NL +:+ "    ".

(** The block under [with] in [run]; it hands [installer_name] to the
    statement after the block. *)
Definition run_body (w : world) (bitness repo_root work_dir : string)
    : M string :=
  print ("Temporary working directory at " +:+ work_dir) ;;;
  mu_about <- about_dict w repo_root ;;
  mu_package_name <- getitem mu_about "__title__" ;;
  mu_version <- getitem mu_about "__version__" ;;
  let icon_file := path_join w repo_root ["package"; "icons"; "win_icon.ico"] in
  let license_file := path_join w repo_root ["LICENSE"] in
  venv_python <- create_packaging_venv w work_dir "mu-packaging-venv" ;;
  install_mu w venv_python repo_root ;;;
  lines <- pip_freeze w venv_python "latin1" ;;
  let requirements := requirements_of mu_package_name lines in
  wheels <- wheels_in w requirements ;;
  let packages := packages_from (set_iteration w) requirements wheels in
  let installer_name := installer_name_of mu_package_name mu_version bitness in
  pynsist_cfg_filename <-
    create_pynsist_cfg_file w work_dir "latin1"
      (cfg_kw mu_version icon_file license_file bitness
         (Py.join SEP wheels) (Py.join SEP packages) installer_name) ;;
  print ("Downloading tkinter for " +:+ bitness +:+ "bit platform.") ;;;
  url <- getitem ASSETS bitness ;;
  filename <- download_file w url work_dir ;;
  print ("Unzipping " +:+ filename +:+ ".") ;;;
  unzip_file w filename work_dir ;;;
  print "Installing pynsist." ;;;
  subprocess_run w [venv_python; "-m"; "pip"; "install"; "pynsist"] ;;;
  print "Running pynsist" ;;;
  subprocess_run w [venv_python; "-m"; "nsist"; pynsist_cfg_filename] ;;;
  print "Copying installer file to the current working directory." ;;;
  let src := path_join w work_dir ["build"; "nsis"; installer_name] in
  ask (EvCopy src ".") (fun tr => guard_ok (copy_ok w tr src ".")) (OSError src) ;;;
  ret installer_name.

Definition run (w : world) (bitness repo_root : string) : M unit :=
  installer_name <-
    with_TemporaryDirectory w ".mu-pynsist" (run_body w bitness repo_root) ;;
  print ("Completed. Installer file is " +:+ installer_name +:+ ".").

(** [sys.exit(msg)] *)
Definition sys_exit {A} (msg : string) : M A := raise (SystemExit msg).

(** The [if __name__ == '__main__':] block, on [sys.argv]. *)
Definition main (w : world) (argv : list string) : M unit :=
  match argv with
  | [_; bitness; setup_py_path] =>
      if decide (ASSETS !! bitness = None)
      then sys_exit ("Invalid bitness " +:+ bitness +:+ ": use 32 or 64.")
      else if negb (Py.endswith setup_py_path "setup.py")
      then sys_exit ("Invalid path to setup.py: " +:+ setup_py_path +:+ ".")
      else
        let repo_root := abspath w (dirname w setup_py_path) in
        run w bitness repo_root
  | _ => sys_exit "Supply bitness (32 or 64) and path to setup.py."
  end.

(** The exit status the interpreter reports for the outcome of [main]:
    0 when the script runs to its end; 1 for [sys.exit] with a message
    (the message goes to standard error) and for every other exception
    that nothing catches. *)
Definition exit_status (o : outcome unit) : Z :=
  match o with
  | Done _ => 0
  | Raised _ => 1
  end.

(** ** Vocabulary for the properties *)

(** Every request [m] adds to the requests made so far satisfies [P]. *)
Definition emits {A} (P : event → Prop) (m : M A) : Prop :=
  ∀ st, ∃ evs, trace (m st).2 = trace st ++ evs ∧ Forall P evs.

(** Every exception [m] raises satisfies [E]. *)
Definition raises {A} (E : exn → Prop) (m : M A) : Prop :=
  ∀ st e, (m st).1 = Raised e → E e.

(** Creation and removal of temporary directories. *)
Definition tempdir_event (e : event) : bool :=
  match e with
  | EvMkdtemp _ | EvRmtree _ => true
  | _ => false
  end.




(** Requests that reach outside the process to the network or to a child
    process. *)
Definition network_or_subprocess (e : event) : bool :=
  match e with
  | EvSpawn _ | EvYargGet _ | EvHttpGet _ => true
  | _ => false
  end.

(** [c in s] for a character. *)
Fixpoint contains_char (c : ascii) (s : string) : bool :=
  match s with
  | EmptyString => false
  | String x s' => Ascii.eqb x c || contains_char c s'
  end.

(** No line boundary occurs in the string. *)
Fixpoint break_free (s : string) : bool :=
  match s with
  | EmptyString => true
  | String x s' => negb (Py.is_linebreak x) && break_free s'
  end.

(** The string without its line boundaries. *)
Fixpoint strip_breaks (s : string) : string :=
  match s with
  | EmptyString => EmptyString
  | String x s' =>
      if Py.is_linebreak x then strip_breaks s' else String x (strip_breaks s')
  end.

(** Whether the index, asked the same way at any time, knows a wheel for
    the exact version of a requirement. *)
Definition wheel_available (index : string → option package)
    (requirement : string) : bool :=
  match index (name_of requirement) with
  | Some package =>
      match package_release package (version_of requirement) with
      | Some releases => any_wheel releases
      | None => false
      end
  | None => false
  end.

(** Requests that stay inside the work directory, apart from the copy of
    the installer to the current directory. *)
Definition confined (w : world) (work_dir : string) (e : event) : Prop :=
  match e with
  | EvMkdtemp _ | EvRmtree _ => False
  | EvWrite path _ _ => ∃ name, path = path_join w work_dir [name]
  | EvWriteBytes path _ => ∃ name, path = path_join w work_dir [name]
  | EvUnzip _ target_directory => target_directory = work_dir
  | EvCopy src dst =>
      dst = "." ∧ ∃ name, src = path_join w work_dir ["build"; "nsis"; name]
  | EvOpenRead _ | EvSpawn _ | EvYargGet _ | EvHttpGet _ => True
  end.

(** Every request but the copy of the installer. *)
Definition not_a_copy (e : event) : Prop :=
  match e with
  | EvCopy _ _ => False
  | _ => True
  end.

(** Whenever [m] asks for a copy, it either goes on to return or raises
    the error of that copy. *)
Definition copies_or_fails {A} (m : M A) : Prop :=
  ∀ st, ∃ evs,
    trace (m st).2 = trace st ++ evs
    ∧ ∀ src dst, EvCopy src dst ∈ evs →
        match (m st).1 with
        | Done _ => True
        | Raised e => e = OSError src
        end.

(** The names of the replacement fields of the configuration template. *)
Definition CFG_FIELDS : list string :=
  ["version"; "icon_file"; "license_file"; "bitness"; "pypi_wheels";
   "packages"; "installer_name"].

(** The [KeyError]s that [run] can raise for a given bitness argument: a
    key missing from the descriptor, or the bitness missing from
    [ASSETS]. *)
Definition descriptor_or_asset_key (bitness : string) (e : exn) : Prop :=
  ∀ k, e = KeyError k →
       k = "__title__" ∨ k = "__version__"
       ∨ (k = bitness ∧ ASSETS !! bitness = None).


(** The text of the configuration file around the computed entries of
    the [packages] list, for given values of the other fields. *)
Definition cfg_before_packages (version icon_file license_file bitness
    pypi_wheels : string) : string :=
  NL +:+ "[Application]" +:+ NL +:+ "name=Mu" +:+ NL
  +:+ "version=" +:+ version +:+ NL
  +:+ "entry_point=mu.app:run" +:+ NL
  +:+ "icon=" +:+ icon_file +:+ NL
  +:+ "publisher=Nicholas H.Tollervey" +:+ NL
  +:+ "license_file=" +:+ license_file +:+ NL +:+ NL
  +:+ "[Command mu-debug]" +:+ NL +:+ "entry_point=mu.app:debug" +:+ NL +:+ NL
  +:+ "[Command pgzrun]" +:+ NL +:+ "entry_point=pgzero.runner:main" +:+ NL +:+ NL
  +:+ "[Python]" +:+ NL +:+ "version=3.6.3" +:+ NL
  +:+ "bitness=" +:+ bitness +:+ NL
  +:+ "format=bundled" +:+ NL +:+ NL
  +:+ "[Include]" +:+ NL +:+ "pypi_wheels=" +:+ NL
  +:+ "    " +:+ pypi_wheels +:+ NL +:+ NL
  +:+ "packages=" +:+ NL +:+ "    tkinter" +:+ NL +:+ "    _tkinter" +:+ NL
  +:+ "    turtle" +:+ NL +:+ "    ".

Definition cfg_after_packages (installer_name : string) : string :=
  NL +:+ NL +:+ "files=lib" +:+ NL +:+ NL +:+ "[Build]" +:+ NL
  +:+ "installer_name=" +:+ installer_name +:+ NL.

(** The same environment under another set iteration order. *)
Definition with_order (w : world) (o : set_order) : world := {|
  sys_executable := sys_executable w;
  path_join := path_join w;
  abspath := abspath w;
  dirname := dirname w;
  set_iteration := o;
  mkdtemp := mkdtemp w;
  rmtree_ok := rmtree_ok w;
  read_about := read_about w;
  spawn := spawn w;
  yarg_get := yarg_get w;
  http_get := http_get w;
  write_ok := write_ok w;
  unzip_ok := unzip_ok w;
  copy_ok := copy_ok w
|}.

(** The texts written to text files, in order. *)
Definition written_texts (tr : list event) : list string :=
  omap (fun e => match e with EvWrite _ _ text => Some text | _ => None end) tr.

(** The names asked of the package index, in order. *)
Definition index_requests (tr : list event) : list string :=
  omap (fun e => match e with EvYargGet name => Some name | _ => None end) tr.

(** The interpreter of the packaging environment under a work directory. *)
Definition venv_python_of (w : world) (work_dir : string) : string :=
  path_join w (path_join w work_dir ["mu-packaging-venv"])
    ["Scripts"; "python.exe"].

(** The command lines of the three children started before the wheel
    check. *)
Definition venv_cmd (w : world) (work_dir : string) : list string :=
  [sys_executable w; "-m"; "venv"; path_join w work_dir ["mu-packaging-venv"]].

Definition install_cmd (w : world) (repo_root work_dir : string)
    : list string :=
  [venv_python_of w work_dir; "-m"; "pip"; "install"; repo_root].

Definition freeze_cmd (w : world) (work_dir : string) : list string :=
  [venv_python_of w work_dir; "-m"; "pip"; "freeze"; "--all"].

(** The requests of the block under [with] up to pip freeze. *)
Definition freeze_requests (w : world) (repo_root work_dir : string)
    : list event :=
  [EvOpenRead (path_join w repo_root ["mu"; "__about__.py"]);
   EvSpawn (venv_cmd w work_dir);
   EvSpawn (install_cmd w repo_root work_dir);
   EvSpawn (freeze_cmd w work_dir)].

(** The block under [with], entered after the requests [tr], gets as far
    as the dependency snapshot: the descriptor is read and gives [title]
    and [version], the three children can be started, and pip freeze exits
    with status 0 after printing [lines]. *)
Definition snapshot (w : world) (repo_root work_dir : string)
    (tr : list event) (title version : string) (lines : list string) : Prop :=
  ∃ about p1 p2 p3,
    read_about w tr (path_join w repo_root ["mu"; "__about__.py"]) = Some about
    ∧ about !! "__title__" = Some title
    ∧ about !! "__version__" = Some version
    ∧ spawn w (tr ++ take 1 (freeze_requests w repo_root work_dir))
        (venv_cmd w work_dir) = Some p1
    ∧ spawn w (tr ++ take 2 (freeze_requests w repo_root work_dir))
        (install_cmd w repo_root work_dir) = Some p2
    ∧ spawn w (tr ++ take 3 (freeze_requests w repo_root work_dir))
        (freeze_cmd w work_dir) = Some p3
    ∧ returncode p3 = 0%Z
    ∧ lines = Py.splitlines (Py.decode_latin1 (proc_stdout p3)).

(** A run started after the requests of [st] gets as far as the
    configuration file: the work directory [work_dir] is made, the
    dependency snapshot is there, and the wheel check, entered after the
    requests up to pip freeze, returns [wheels]. *)
Definition reaches_configuration (w : world) (repo_root : string) (st : state)
    (work_dir title version : string) (lines wheels : list string) : Prop :=
  mkdtemp w (trace st) ".mu-pynsist" = Some work_dir
  ∧ snapshot w repo_root work_dir (trace st ++ [EvMkdtemp work_dir])
      title version lines
  ∧ (wheels_in w (requirements_of title lines)
       (State ((trace st ++ [EvMkdtemp work_dir])
               ++ freeze_requests w repo_root work_dir) [])).1
    = Done wheels.

(** The text [run] puts into the configuration file. *)
Definition cfg_text (w : world) (o : set_order) (bitness repo_root : string)
    (title version : string) (requirements wheels : list string) : string :=
  cfg_before_packages version
    (path_join w repo_root ["package"; "icons"; "win_icon.ico"])
    (path_join w repo_root ["LICENSE"]) bitness (Py.join SEP wheels)
  +:+ Py.join SEP (packages_from o requirements wheels)
  +:+ cfg_after_packages (installer_name_of title version bitness).

(** The requests that follow the writing of the configuration file. *)
Definition after_configuration (e : event) : Prop :=
  match e with
  | EvHttpGet _ | EvWriteBytes _ _ | EvUnzip _ _ | EvSpawn _ | EvCopy _ _ =>
      True
  | _ => False
  end.

(** A command line of the shape of pip freeze, under any interpreter. *)
Definition is_freeze (cmd : list string) : bool :=
  match cmd with
  | [_; a; b; c; d] =>
      String.eqb a "-m" && String.eqb b "pip" && String.eqb c "freeze"
      && String.eqb d "--all"
  | _ => false
  end.

(** The same environment, except that every child other than pip freeze
    exits with the status [status] gives it. *)
Definition with_statuses (w : world)
    (status : list event → list string → Z) : world := {|
  sys_executable := sys_executable w;
  path_join := path_join w;
  abspath := abspath w;
  dirname := dirname w;
  set_iteration := set_iteration w;
  mkdtemp := mkdtemp w;
  rmtree_ok := rmtree_ok w;
  read_about := read_about w;
  spawn := fun tr cmd =>
    if is_freeze cmd then spawn w tr cmd
    else (fun p => Completed (status tr cmd) (proc_stdout p)) <$> spawn w tr cmd;
  yarg_get := yarg_get w;
  http_get := http_get w;
  write_ok := write_ok w;
  unzip_ok := unzip_ok w;
  copy_ok := copy_ok w
|}.

(** A replacement field that is a plain name: a letter or an underscore,
    then letters, digits and underscores. *)
Definition is_name_start (c : ascii) : bool :=
  let n := nat_of_ascii c in
  ((65 <=? n) && (n <=? 90) || (97 <=? n) && (n <=? 122) || (n =? 95))%nat.

Definition is_name_char (c : ascii) : bool :=
  let n := nat_of_ascii c in
  (is_name_start c || (48 <=? n) && (n <=? 57))%nat.

Definition plain_name (s : string) : bool :=
  match s with
  | EmptyString => false
  | String c s' =>
      is_name_start c && forallb is_name_char (list_ascii_of_string s')
  end.

(** ** Sample environments *)

Definition BACKSLASH : string := String (ascii_of_nat 92) EmptyString.

(** A join of path components good enough for relative components. *)
Definition sample_join (a : string) (ps : list string) : string :=
  foldl (fun acc p => acc +:+ BACKSLASH +:+ p) a ps.

(** Two iteration orders of the same sets. *)
Definition ascending_order : set_order :=
  SetOrder elements (fun X => reflexivity (elements X)).

Definition descending_order : set_order :=
  SetOrder (fun X => reverse (elements X))
           (fun X => reverse_Permutation (elements X)).

Definition sample_freeze : string :=
  "pip==9.0.1" +:+ NL +:+ "Foo==1.2.3" +:+ NL +:+ "alpha==1.0" +:+ NL
  +:+ "beta==2.0" +:+ NL.

(** An environment in which the descriptor says Foo 1.2.3, pip freeze
    prints [sample_freeze], only pip has a wheel, and every child process
    leaves the exit status [status cmd]. *)
Definition sample_world (o : set_order) (status : list string → Z) : world := {|
  sys_executable := "python";
  path_join := sample_join;
  abspath := fun p => p;
  dirname := fun p => "repo";
  set_iteration := o;
  mkdtemp := fun _ suffix => Some ("tmp1" +:+ suffix);
  rmtree_ok := fun _ _ => true;
  read_about := fun _ _ =>
    Some (<["__title__" := "Foo"]> (<["__version__" := "1.2.3"]> ∅));
  spawn := fun _ cmd =>
    Some (Completed (status cmd)
            (if decide (cmd !! 3%nat = Some "freeze")
             then list_byte_of_string sample_freeze else []));
  yarg_get := fun _ name =>
    Some (Package (fun _ =>
      Some [Release (if String.eqb name "pip" then "wheel" else "sdist")]));
  http_get := fun _ _ =>
    Some (Response [[Byte.x50; Byte.x4b]; []; [Byte.x03]] true);
  write_ok := fun _ _ => true;
  unzip_ok := fun _ _ _ => true;
  copy_ok := fun _ _ _ => true
|}.

Definition all_succeed (cmd : list string) : Z := 0.

(** The fourth word of a command fails with status 1, every other
    command succeeds. *)
Definition fails_at (word : string) (cmd : list string) : Z :=
  if decide (cmd !! 3%nat = Some word) then 1 else 0.

(** The index knows two versions of one package; only version 1 has a
    wheel. *)
Definition two_versions_world : world := {|
  sys_executable := "python";
  path_join := sample_join;
  abspath := fun p => p;
  dirname := fun p => "repo";
  set_iteration := ascending_order;
  mkdtemp := fun _ suffix => Some ("tmp1" +:+ suffix);
  rmtree_ok := fun _ _ => true;
  read_about := fun _ _ =>
    Some (<["__title__" := "Foo"]> (<["__version__" := "1.2.3"]> ∅));
  spawn := fun _ _ => Some (Completed 0 []);
  yarg_get := fun _ name =>
    Some (Package (fun version =>
      Some [Release (if String.eqb version "1" then "wheel" else "sdist")]));
  http_get := fun _ _ => Some (Response [] true);
  write_ok := fun _ _ => true;
  unzip_ok := fun _ _ _ => true;
  copy_ok := fun _ _ _ => true
|}.


(** The sample environment, except that the transfer of the archive
    breaks off after its first chunk when [transfers] is [false], and
    that the copy of the installer fails when [copies] is [false]. *)
Definition broken_world (transfers copies : bool) : world := {|
  sys_executable := "python";
  path_join := sample_join;
  abspath := fun p => p;
  dirname := fun p => "repo";
  set_iteration := ascending_order;
  mkdtemp := fun _ suffix => Some ("tmp1" +:+ suffix);
  rmtree_ok := fun _ _ => true;
  read_about := fun _ _ =>
    Some (<["__title__" := "Foo"]> (<["__version__" := "1.2.3"]> ∅));
  spawn := fun _ cmd =>
    Some (Completed 0
            (if decide (cmd !! 3%nat = Some "freeze")
             then list_byte_of_string sample_freeze else []));
  yarg_get := fun _ name =>
    Some (Package (fun _ =>
      Some [Release (if String.eqb name "pip" then "wheel" else "sdist")]));
  http_get := fun _ _ =>
    Some (if transfers
          then Response [[Byte.x50; Byte.x4b]; []; [Byte.x03]] true
          else Response [[Byte.x50; Byte.x4b]] false);
  write_ok := fun _ _ => true;
  unzip_ok := fun _ _ _ => true;
  copy_ok := fun _ _ _ => copies
|}.

(** An environment in which nothing outside the process answers. *)
Definition offline_world : world := {|
  sys_executable := "python";
  path_join := sample_join;
  abspath := fun p => p;
  dirname := fun p => "repo";
  set_iteration := ascending_order;
  mkdtemp := fun _ suffix => Some ("tmp1" +:+ suffix);
  rmtree_ok := fun _ _ => true;
  read_about := fun _ _ => Some (<["__version__" := "1.2.3"]> ∅);
  spawn := fun _ _ => None;
  yarg_get := fun _ _ => None;
  http_get := fun _ _ => None;
  write_ok := fun _ _ => true;
  unzip_ok := fun _ _ _ => true;
  copy_ok := fun _ _ _ => true
|}.

(** * Properties *)

(** ** String primitives *)

(* stdpp keeps [String.append] folded; the string lemmas below unfold it. *)
#[local] Arguments String.append !_ _ / : simpl nomatch.

Section StringFacts.

Lemma append_nil_r (s : string) : s +:+ EmptyString = s.
Proof. induction s as [|c s IH]; simpl; [done | by rewrite IH]. Qed.

Lemma append_assoc (a b c : string) : (a +:+ b) +:+ c = a +:+ (b +:+ c).
Proof. induction a as [|x a IH]; simpl; [done | by rewrite IH]. Qed.

Lemma length_append (a b : string) :
  String.length (a +:+ b) = (String.length a + String.length b)%nat.
Proof. induction a as [|x a IH]; simpl; [done | by rewrite IH]. Qed.

Lemma prefix_true (p s : string) :
  String.prefix p s = true ↔ ∃ t, s = p +:+ t.
Proof.
  revert p. induction s as [|d s IH]; intros [|c p]; simpl.
  - split; [by exists EmptyString | done].
  - split; [done | intros [t Ht]; discriminate].
  - split; [intros _; by exists (String d s) | done].
  - destruct (Ascii.ascii_dec c d) as [->|Hne].
    + rewrite IH. split; intros [t Ht]; exists t; congruence.
    + split; [done | intros [t Ht]; congruence].
Qed.

Lemma skip_append (p t : string) : Py.skip (String.length p) (p +:+ t) = t.
Proof. induction p as [|c p IH]; simpl; [by destruct t | done]. Qed.

Lemma partition_unfold (sep s : string) :
  Py.partition sep s =
  if String.prefix sep s
  then (EmptyString, sep, Py.skip (String.length sep) s)
  else match s with
       | EmptyString => (EmptyString, EmptyString, EmptyString)
       | String c s' =>
           let '(head, mid, tail) := Py.partition sep s' in
           (String c head, mid, tail)
       end.
Proof. by destruct s. Qed.

(** [partition] splits the string at an occurrence of the separator, or
    reports that there is none. *)
Lemma partition_split (sep s head mid tail : string) :
  Py.partition sep s = (head, mid, tail) →
  (mid = sep ∧ s = head +:+ sep +:+ tail)
  ∨ (mid = EmptyString ∧ tail = EmptyString ∧ head = s).
Proof.
  revert head mid tail.
  induction s as [|c s IH]; intros head mid tail; rewrite partition_unfold;
    destruct (String.prefix _ _) eqn:Hp.
  - apply prefix_true in Hp as [t Ht]. intros [= <- <- <-]. left.
    destruct sep; [by split | discriminate].
  - intros [= <- <- <-]. by right.
  - apply prefix_true in Hp as [t Ht]. intros [= <- <- <-]. left.
    split; [done |]. rewrite Ht at 1 2. by rewrite skip_append.
  - destruct (Py.partition sep s) as [[h m] t] eqn:Hs.
    intros [= <- <- <-].
    destruct (IH h m t eq_refl) as [[-> ->] | (-> & -> & ->)].
    + left. by split.
    + by right.
Qed.

(** The head returned by [partition] holds no occurrence of a non-empty
    separator: the split is at the first occurrence. *)
Lemma partition_head_free (sep s head mid tail : string) :
  sep ≠ EmptyString →
  Py.partition sep s = (head, mid, tail) →
  ∀ a b, head ≠ a +:+ sep +:+ b.
Proof.
  intros Hsep. revert head mid tail.
  induction s as [|c s IH]; intros head mid tail; rewrite partition_unfold;
    destruct (String.prefix _ _) eqn:Hp.
  - intros [= <- <- <-] a b Hab. destruct a, sep; simpl in Hab; congruence.
  - intros [= <- <- <-] a b Hab. destruct a, sep; simpl in Hab; congruence.
  - intros [= <- <- <-] a b Hab. destruct a, sep; simpl in Hab; congruence.
  - destruct (Py.partition sep s) as [[h m] t] eqn:Hs.
    intros [= <- <- <-] a b Hab.
    destruct a as [|x a]; simpl in Hab.
    + assert (String.prefix sep (String c s) = true) as Hp'; [|congruence].
      apply prefix_true.
      destruct (partition_split _ _ _ _ _ Hs) as [[-> ->] | (-> & -> & ->)].
      * exists (b +:+ sep +:+ t).
        change (String c (h +:+ sep +:+ t)) with (String c h +:+ sep +:+ t).
        rewrite Hab. by rewrite !append_assoc.
      * exists b. by rewrite Hab.
    + injection Hab as -> Hab. by eapply IH.
Qed.

Lemma endswith_unfold (s suffix : string) :
  Py.endswith s suffix =
  if String.eqb s suffix then true
  else match s with
       | EmptyString => false
       | String _ s' => Py.endswith s' suffix
       end.
Proof. by destruct s. Qed.

Lemma endswith_true (s suffix : string) :
  Py.endswith s suffix = true ↔ ∃ pre, s = pre +:+ suffix.
Proof.
  induction s as [|c s IH]; rewrite endswith_unfold;
    [destruct (String.eqb_spec EmptyString suffix) as [<-|Hne]
    |destruct (String.eqb_spec (String c s) suffix) as [<-|Hne]].
  - split; [by exists EmptyString | done].
  - split; [done | intros [pre Hpre]]. destruct pre; simpl in Hpre; congruence.
  - split; [by exists EmptyString | done].
  - rewrite IH. split.
    + intros [pre ->]. by exists (String c pre).
    + intros [pre Hpre]. destruct pre as [|x pre]; simpl in Hpre; [congruence |].
      injection Hpre as -> ->. by exists pre.
Qed.

End StringFacts.

(** The name of a requirement is the text before its first [==]. *)
Lemma name_of_split (line : string) :
  line = name_of line
  ∨ ∃ version, line = name_of line +:+ "==" +:+ version.
Proof.
  unfold name_of. destruct (Py.partition "==" line) as [[h m] t] eqn:Hp.
  destruct (partition_split _ _ _ _ _ Hp) as [[-> ->] | (-> & -> & ->)]; simpl.
  - right. by exists t.
  - by left.
Qed.

Lemma name_of_bare (line : string) :
  ∀ a b, name_of line ≠ a +:+ "==" +:+ b.
Proof.
  unfold name_of. destruct (Py.partition "==" line) as [[h m] t] eqn:Hp.
  by eapply partition_head_free.
Qed.

Lemma partition_pin name version :
  contains_char "=" name = false →
  Py.partition "==" (name +:+ "==" +:+ version) = (name, "==", version).
Proof.
  intros Hname. induction name as [|x name IH].
  - change (EmptyString +:+ "==" +:+ version) with ("==" +:+ version).
    rewrite partition_unfold.
    replace (String.prefix "==" ("==" +:+ version))
      with true by (symmetry; apply prefix_true; by exists version).
    by rewrite (skip_append "==" version).
  - simpl in Hname. apply orb_false_iff in Hname as [Hx Hname].
    rewrite partition_unfold.
    destruct (String.prefix "==" (String x name +:+ "==" +:+ version))
      eqn:Hp.
    + apply prefix_true in Hp as [t Ht]. injection Ht as -> _.
      discriminate.
    + specialize (IH Hname). simpl. simpl in IH. by rewrite IH.
Qed.

Lemma name_of_pin name version :
  contains_char "=" name = false →
  name_of (name +:+ "==" +:+ version) = name.
Proof. intros Hname. unfold name_of. by rewrite partition_pin. Qed.

(** ** Template filling *)

(** With the keyword arguments [run] passes, filling the template never
    fails, and the result is the fixed text around the field values. *)
Lemma format_cfg (version icon_file license_file bitness pypi_wheels
    packages installer_name : string) :
  Py.format PYNSIST_CFG_TEMPLATE
    (cfg_kw version icon_file license_file bitness pypi_wheels packages
       installer_name)
  = Done (cfg_before_packages version icon_file license_file bitness
            pypi_wheels
          +:+ packages +:+ cfg_after_packages installer_name).
Proof.
  unfold cfg_before_packages, cfg_after_packages.
  rewrite !append_assoc. vm_compute. reflexivity.
Qed.

(** ** The monad *)

Section MonadFacts.
Context {A B : Type}.

Lemma bind_inv (m : M A) (k : A → M B) st out st' :
  bind m k st = (out, st') →
  (∃ a st1, m st = (Done a, st1) ∧ k a st1 = (out, st'))
  ∨ (∃ e, m st = (Raised e, st') ∧ out = Raised e).
Proof.
  unfold bind. destruct (m st) as [[a|e] st1]; intros H.
  - left. eauto.
  - right. injection H as <- <-. eauto.
Qed.

Lemma bind_done_inv (m : M A) (k : A → M B) st b st' :
  bind m k st = (Done b, st') →
  ∃ a st1, m st = (Done a, st1) ∧ k a st1 = (Done b, st').
Proof.
  intros H. apply bind_inv in H as [H | (e & _ & He)]; [done | discriminate].
Qed.

Lemma bind_done (m : M A) (k : A → M B) st a st1 :
  m st = (Done a, st1) → bind m k st = k a st1.
Proof. unfold bind. by intros ->. Qed.

Lemma bind_raised (m : M A) (k : A → M B) st e st1 :
  m st = (Raised e, st1) → bind m k st = (Raised e, st1).
Proof. unfold bind. by intros ->. Qed.

Lemma emits_bind P (m : M A) (k : A → M B) :
  emits P m → (∀ a, emits P (k a)) → emits P (bind m k).
Proof.
  intros Hm Hk st. unfold bind.
  destruct (Hm st) as (evs1 & E1 & F1).
  destruct (m st) as [[a|e] st1]; simpl in *.
  - destruct (Hk a st1) as (evs2 & E2 & F2).
    exists (evs1 ++ evs2). rewrite E2, E1, app_assoc.
    split; [done | by apply Forall_app].
  - by exists evs1.
Qed.

Lemma raises_bind E (m : M A) (k : A → M B) :
  raises E m → (∀ a, raises E (k a)) → raises E (bind m k).
Proof.
  intros Hm Hk st e. unfold bind.
  specialize (Hm st). destruct (m st) as [[a|e'] st1]; simpl in *.
  - apply Hk.
  - intros [= <-]. by apply Hm.
Qed.

End MonadFacts.

Section PrimitiveFacts.
Context {A : Type} (P : event → Prop) (E : exn → Prop).

Lemma emits_ret (a : A) : emits P (ret a).
Proof. intros st. exists []. by rewrite app_nil_r. Qed.

Lemma emits_raise (e : exn) : emits P (raise (A:=A) e).
Proof. intros st. exists []. by rewrite app_nil_r. Qed.

Lemma emits_print_end text e : emits P (print_end text e).
Proof. intros st. exists []. simpl. by rewrite app_nil_r. Qed.

Lemma emits_print text : emits P (print text).
Proof. apply emits_print_end. Qed.

Lemma emits_ask ev (oracle : list event → option A) failure :
  P ev → emits P (ask ev oracle failure).
Proof.
  intros Hev st. exists [ev]. unfold ask, request.
  destruct (oracle (trace st)); simpl; by repeat constructor.
Qed.

Lemma raises_ret (a : A) : raises E (ret a).
Proof. by intros st e. Qed.

Lemma raises_raise (e : exn) : E e → raises E (raise (A:=A) e).
Proof. intros He st e' [= <-]. done. Qed.

Lemma raises_print_end text e : raises E (print_end text e).
Proof. by intros st e'. Qed.

Lemma raises_print text : raises E (print text).
Proof. by intros st e'. Qed.

Lemma raises_ask ev (oracle : list event → option A) failure :
  E failure → raises E (ask ev oracle failure).
Proof.
  intros He st e'. unfold ask, request.
  destruct (oracle (trace st)); simpl; [done | by intros [= <-]].
Qed.

End PrimitiveFacts.

Lemma emits_getitem P d key : emits P (getitem d key).
Proof.
  unfold getitem. destruct (d !! key); [apply emits_ret | apply emits_raise].
Qed.

Lemma raises_getitem (E : exn → Prop) d key :
  (d !! key = None → E (KeyError key)) → raises E (getitem d key).
Proof.
  intros He. unfold getitem. destruct (d !! key); [apply raises_ret |].
  apply raises_raise. by apply He.
Qed.

(** What a request returns and leaves behind, by the oracle's answer. *)
Lemma ask_inv {A} ev (oracle : list event → option A) failure st out st' :
  ask ev oracle failure st = (out, st') →
  st' = record ev st
  ∧ ((∃ a, oracle (trace st) = Some a ∧ out = Done a)
     ∨ (oracle (trace st) = None ∧ out = Raised failure)).
Proof.
  unfold ask, request. destruct (oracle (trace st)) as [a|]; intros [= <- <-];
    (split; [done |]); [left | right]; eauto.
Qed.

Lemma ask_some {A} ev (oracle : list event → option A) failure st a :
  oracle (trace st) = Some a →
  ask ev oracle failure st = (Done a, record ev st).
Proof. unfold ask, request. by intros ->. Qed.

Lemma ask_none {A} ev (oracle : list event → option A) failure st :
  oracle (trace st) = None →
  ask ev oracle failure st = (Raised failure, record ev st).
Proof. unfold ask, request. by intros ->. Qed.

Lemma trace_record e st : trace (record e st) = trace st ++ [e].
Proof. done. Qed.

Lemma print_inv text st u st1 :
  print text st = (Done u, st1) → trace st1 = trace st.
Proof. by intros [= _ <-]. Qed.

Lemma getitem_inv d key st v st1 :
  getitem d key st = (Done v, st1) → d !! key = Some v ∧ st1 = st.
Proof. unfold getitem. destruct (d !! key); by intros [= <- <-]. Qed.

Lemma guard_ok_some b u : guard_ok b = Some u → b = true.
Proof. by destruct b. Qed.

(** Proof steps for the two predicates, following the syntax of the code. *)
Ltac emits_step :=
  first
    [ apply emits_ret | apply emits_raise | apply emits_print
    | apply emits_print_end | apply emits_getitem
    | apply emits_ask; done
    | apply emits_bind; [| intros ?] ].

Ltac raises_step :=
  first
    [ apply raises_ret | apply raises_print | apply raises_print_end
    | apply raises_raise; done
    | apply raises_ask; done
    | apply raises_bind; [| intros ?] ].

(** ** The wheel check *)

Lemma wheels_in_loop_cons w requirement rest wheels :
  wheels_in_loop w (requirement :: rest) wheels =
  (print_end ("  - " +:+ requirement +:+ ": ") EmptyString ;;;
   package <- ask (EvYargGet (name_of requirement))
                  (fun tr => yarg_get w tr (name_of requirement))
                  (HTTPError (name_of requirement)) ;;
   match package_release package (version_of requirement) with
   | None => raise (TypeError "'NoneType' object is not iterable")
   | Some releases =>
       if any_wheel releases
       then print "ok" ;;; wheels_in_loop w rest (wheels ++ [requirement])
       else print "missing" ;;; wheels_in_loop w rest wheels
   end).
Proof.
  unfold name_of, version_of. simpl.
  by destruct (Py.partition "==" requirement) as [[name mid] version].
Qed.

(** The loop only ever appends entries of its input, in their order. *)
Lemma wheels_in_loop_sublist w requirements :
  ∀ wheels st result st',
    wheels_in_loop w requirements wheels st = (Done result, st') →
    ∃ kept, result = wheels ++ kept ∧ kept `sublist_of` requirements.
Proof.
  induction requirements as [|requirement rest IH]; intros wheels st result st'.
  - intros [= <- <-]. exists []. by rewrite app_nil_r.
  - rewrite wheels_in_loop_cons. intros H.
    apply bind_done_inv in H as (_ & st1 & _ & H).
    apply bind_done_inv in H as (package & st2 & _ & H).
    destruct (package_release package (version_of requirement)) as [releases|];
      [|discriminate].
    destruct (any_wheel releases);
      apply bind_done_inv in H as (_ & st3 & _ & H);
      apply IH in H as (kept & -> & Hsub).
    + exists (requirement :: kept). rewrite <- app_assoc. split; [done |].
      by apply sublist_skip.
    + exists kept. split; [done |]. by apply sublist_cons.
Qed.

Lemma wheels_in_sublist_of w requirements st wheels st' :
  wheels_in w requirements st = (Done wheels, st') →
  wheels `sublist_of` requirements.
Proof.
  unfold wheels_in. intros H.
  apply bind_done_inv in H as (_ & st1 & _ & H).
  by apply wheels_in_loop_sublist in H as (kept & -> & Hsub).
Qed.

Lemma emits_wheels_in_loop (P : event → Prop) w requirements :
  (∀ name, P (EvYargGet name)) →
  ∀ wheels, emits P (wheels_in_loop w requirements wheels).
Proof.
  intros HP. induction requirements as [|requirement rest IH]; intros wheels.
  - apply emits_ret.
  - rewrite wheels_in_loop_cons. do 2 emits_step.
    + apply emits_ask, HP.
    + destruct (package_release _ _) as [releases|]; [|emits_step].
      destruct (any_wheel releases); emits_step; first [emits_step | apply IH].
Qed.

Lemma emits_wheels_in (P : event → Prop) w requirements :
  (∀ name, P (EvYargGet name)) → emits P (wheels_in w requirements).
Proof.
  intros HP. unfold wheels_in. emits_step; [emits_step |].
  by apply emits_wheels_in_loop.
Qed.

Lemma raises_wheels_in_loop (E : exn → Prop) w requirements :
  (∀ d, E (HTTPError d)) → (∀ d, E (TypeError d)) →
  ∀ wheels, raises E (wheels_in_loop w requirements wheels).
Proof.
  intros HH HT. induction requirements as [|requirement rest IH]; intros wheels.
  - apply raises_ret.
  - rewrite wheels_in_loop_cons. do 2 raises_step.
    + apply raises_ask, HH.
    + destruct (package_release _ _) as [releases|].
      * destruct (any_wheel releases); raises_step;
          first [raises_step | apply IH].
      * apply raises_raise, HT.
Qed.

Lemma raises_wheels_in (E : exn → Prop) w requirements :
  (∀ d, E (HTTPError d)) → (∀ d, E (TypeError d)) →
  raises E (wheels_in w requirements).
Proof.
  intros HH HT. unfold wheels_in. raises_step; [raises_step |].
  by apply raises_wheels_in_loop.
Qed.

(** When the index knows every requirement, whatever came before, the
    check returns. *)
Lemma wheels_in_loop_returns w requirements :
  (∀ tr requirement, requirement ∈ requirements →
     ∃ package releases,
       yarg_get w tr (name_of requirement) = Some package
       ∧ package_release package (version_of requirement) = Some releases) →
  ∀ wheels st, ∃ result st',
    wheels_in_loop w requirements wheels st = (Done result, st').
Proof.
  induction requirements as [|requirement rest IH]; intros Hknown wheels st.
  - by exists wheels, st.
  - rewrite wheels_in_loop_cons.
    set (st1 := State (trace st)
                  (stdout st ++ [("  - " +:+ requirement +:+ ": ") +:+ EmptyString])).
    destruct (Hknown (trace st1) requirement) as (package & releases & Hg & Hr);
      [by left |].
    assert (∀ tr r, r ∈ rest → ∃ package releases,
              yarg_get w tr (name_of r) = Some package
              ∧ package_release package (version_of r) = Some releases) as Hrest.
    { intros tr r Hin. apply Hknown. by right. }
    unfold bind at 1. simpl. fold st1.
    erewrite bind_done; [| by apply ask_some].
    rewrite Hr. destruct (any_wheel releases); unfold bind at 1; simpl; by apply IH.
Qed.

Lemma wheels_in_returns w requirements st :
  (∀ tr requirement, requirement ∈ requirements →
     ∃ package releases,
       yarg_get w tr (name_of requirement) = Some package
       ∧ package_release package (version_of requirement) = Some releases) →
  ∃ wheels st', wheels_in w requirements st = (Done wheels, st').
Proof.
  intros Hknown. unfold wheels_in, bind at 1. simpl.
  by apply wheels_in_loop_returns.
Qed.

Lemma print_end_inv {A} text e (k : unit → M A) st out st' :
  bind (print_end text e) k st = (out, st') →
  ∃ s1, trace s1 = trace st ∧ k tt s1 = (out, st').
Proof. unfold bind. simpl. intros H. eexists. split; [|exact H]. done. Qed.

Lemma wheels_in_loop_requests w requirements :
  ∀ wheels st out st',
    wheels_in_loop w requirements wheels st = (out, st') →
    match out with
    | Done _ =>
        trace st'
        = trace st ++ ((fun r => EvYargGet (name_of r)) <$> requirements)
    | Raised e =>
        ∃ n r, requirements !! n = Some r
               ∧ trace st'
                 = trace st
                   ++ ((fun r => EvYargGet (name_of r))
                         <$> take (S n) requirements)
               ∧ (e = HTTPError (name_of r)
                  ∨ e = TypeError "'NoneType' object is not iterable")
    end.
Proof.
  induction requirements as [|requirement rest IH]; intros wheels st out st'.
  - intros [= <- <-]. simpl. by rewrite app_nil_r.
  - rewrite wheels_in_loop_cons. intros H.
    apply print_end_inv in H as (s1 & Hs1 & H).
    apply bind_inv in H as [(package & s2 & Hask & H) | (e & Hask & ->)].
    + apply ask_inv in Hask as [-> _].
      assert (∀ ws s,
                trace s = trace st ++ [EvYargGet (name_of requirement)] →
                wheels_in_loop w rest ws s = (out, st') →
                match out with
                | Done _ =>
                    trace st'
                    = trace st
                      ++ ((fun r => EvYargGet (name_of r))
                            <$> requirement :: rest)
                | Raised e =>
                    ∃ n r, (requirement :: rest) !! n = Some r
                           ∧ trace st'
                             = trace st
                               ++ ((fun r => EvYargGet (name_of r))
                                     <$> take (S n) (requirement :: rest))
                           ∧ (e = HTTPError (name_of r)
                              ∨ e = TypeError "'NoneType' object is not iterable")
                end) as Hrest.
      { intros ws s Hs Hws. apply IH in Hws. rewrite Hs in Hws.
        destruct out as [result|e].
        - rewrite Hws, fmap_cons, <- app_assoc. done.
        - destruct Hws as (n & r & Hn & Htr & He). exists (S n), r.
          split; [done |]. split; [|done].
          rewrite Htr, <- app_assoc. done. }
      destruct (package_release package (version_of requirement))
        as [releases|].
      * destruct (any_wheel releases);
          apply print_end_inv in H as (s3 & Hs3 & H);
          (eapply Hrest; [| exact H]);
          rewrite Hs3, trace_record, Hs1; reflexivity.
      * injection H as <- <-. exists 0%nat, requirement.
        split; [done |]. split; [|by right].
        rewrite trace_record, Hs1. done.
    + apply ask_inv in Hask as [-> [(a & _ & [=]) | [_ [= ->]]]].
      exists 0%nat, requirement. split; [done |]. split; [|by left].
      rewrite trace_record, Hs1. done.
Qed.

(** ** The extra packages *)

Lemma elem_of_packages_from o requirements wheels p :
  p ∈ packages_from o requirements wheels
  ↔ ∃ r, r ∈ requirements ∧ (r ∉ wheels) ∧ p = name_of r.
Proof.
  unfold packages_from. rewrite list_elem_of_fmap. split.
  - intros (r & -> & Hr). exists r. rewrite (iter_perm o) in Hr.
    apply elem_of_elements, elem_of_difference in Hr as [Hin Hout].
    rewrite elem_of_list_to_set in Hin, Hout. done.
  - intros (r & Hin & Hout & ->). exists r. split; [done |].
    rewrite (iter_perm o). apply elem_of_elements, elem_of_difference.
    by rewrite !elem_of_list_to_set.
Qed.

Lemma sublist_elem_of {A} (l1 l2 : list A) x :
  l1 `sublist_of` l2 → x ∈ l1 → x ∈ l2.
Proof.
  induction 1 as [|a l1 l2 _ IH|a l1 l2 _ IH]; intros Hx; [done | |].
  - apply elem_of_cons in Hx as [->|Hx]; [by left | right; by apply IH].
  - right. by apply IH.
Qed.

(** Names of the wheels and the extra packages together are the names of
    the requirements, for every requirement list. *)
Lemma names_covered o requirements wheels n :
  wheels `sublist_of` requirements →
  (n ∈ name_of <$> wheels ∨ n ∈ packages_from o requirements wheels)
  ↔ n ∈ name_of <$> requirements.
Proof.
  intros Hsub. rewrite elem_of_packages_from, !list_elem_of_fmap. split.
  - intros [(r & -> & Hr) | (r & Hin & _ & ->)]; exists r; split; try done.
    by eapply sublist_elem_of.
  - intros (r & -> & Hr). destruct (decide (r ∈ wheels)); [left | right]; eauto.
Qed.

(** ** The dependency snapshot *)

Lemma pip_freeze_failed w python encoding st p :
  spawn w (trace st) [python; "-m"; "pip"; "freeze"; "--all"] = Some p →
  returncode p ≠ 0%Z →
  pip_freeze w python encoding st
  = (Raised (CalledProcessError (returncode p)
               [python; "-m"; "pip"; "freeze"; "--all"]),
     State (trace st ++ [EvSpawn [python; "-m"; "pip"; "freeze"; "--all"]])
           (stdout st ++ ["Getting frozen requirements..." +:+ NL])).
Proof.
  intros Hp Hrc.
  unfold pip_freeze, subprocess_check_output, subprocess_run.
  unfold bind at 1. simpl. unfold bind at 1, bind at 1.
  erewrite ask_some; [|done].
  by destruct (Z.eqb_spec (returncode p) 0).
Qed.

Lemma requirements_of_sublist title lines :
  requirements_of title lines `sublist_of` lines.
Proof. apply sublist_filter. Qed.

Lemma elem_of_requirements_of title lines l :
  l ∈ requirements_of title lines ↔ l ∈ lines ∧ name_of l ≠ title.
Proof. unfold requirements_of. rewrite list_elem_of_filter. tauto. Qed.

(** ** The pipeline *)

Ltac emits_all :=
  repeat first
    [ apply emits_wheels_in; done
    | emits_step
    | rewrite format_cfg
    | case_match ].


Ltac raises_all :=
  repeat first
    [ apply raises_wheels_in; intros ? ? [=]
    | raises_step
    | apply raises_raise; intros ? [=]
    | apply raises_ask; intros ? [=]
    | rewrite format_cfg
    | case_match ].

Lemma raises_run_body w bitness repo_root work_dir :
  raises (descriptor_or_asset_key bitness)
         (run_body w bitness repo_root work_dir).
Proof.
  unfold run_body, about_dict, create_packaging_venv,
    install_mu, pip_freeze, subprocess_check_output, subprocess_run,
    bytes_decode, create_pynsist_cfg_file, download_file, unzip_file.
  raises_all.
  - apply raises_getitem. intros _ k [= <-]. by left.
  - apply raises_getitem. intros _ k [= <-]. right. by left.
  - apply raises_getitem. intros Hnone k [= <-]. right. right. done.
Qed.

Lemma subprocess_run_inv w cmd st p st1 :
  subprocess_run w cmd st = (Done p, st1) →
  spawn w (trace st) cmd = Some p ∧ st1 = record (EvSpawn cmd) st.
Proof.
  unfold subprocess_run. intros H.
  apply ask_inv in H as [-> [(p' & Hp & [= <-]) | [_ ?]]]; done.
Qed.

(** A nonzero exit status of a child started with [subprocess.run] is
    not an error of the script. *)
Lemma subprocess_run_any_status w cmd st p :
  spawn w (trace st) cmd = Some p →
  subprocess_run w cmd st = (Done p, record (EvSpawn cmd) st).
Proof. intros Hp. unfold subprocess_run. by apply ask_some. Qed.

Lemma create_pynsist_cfg_file_inv w target_directory encoding version icon_file
    license_file bitness pypi_wheels packages installer_name st filename st' :
  create_pynsist_cfg_file w target_directory encoding
    (cfg_kw version icon_file license_file bitness pypi_wheels packages
       installer_name) st = (Done filename, st') →
  filename = path_join w target_directory ["pynsist.cfg"]
  ∧ trace st' =
      trace st ++
      [EvWrite filename encoding
         (cfg_before_packages version icon_file license_file bitness
            pypi_wheels
          +:+ packages +:+ cfg_after_packages installer_name)].
Proof.
  unfold create_pynsist_cfg_file. rewrite format_cfg. intros H.
  apply bind_done_inv in H as (u1 & s1 & Hw & H1).
  apply ask_inv in Hw as [-> _].
  apply bind_done_inv in H1 as (u2 & s2 & Hp2 & H2). apply print_inv in Hp2.
  apply bind_done_inv in H2 as (u3 & s3 & Hp3 & H3). apply print_inv in Hp3.
  injection H3 as <- <-. split; [done |]. by rewrite Hp3, Hp2.
Qed.

Lemma download_file_inv w url target_directory st filename st' :
  download_file w url target_directory st = (Done filename, st') →
  ∃ r,
    http_get w (trace st) url = Some r
    ∧ complete r = true
    ∧ filename = path_join w target_directory [Py.split_last "/" url]
    ∧ trace st'
      = trace st
        ++ [EvHttpGet url;
            EvWriteBytes filename
              (concat (filter (fun chunk => chunk ≠ []) (chunks r)))].
Proof.
  unfold download_file. intros H.
  apply bind_done_inv in H as (r & s1 & Hget & H1).
  apply ask_inv in Hget as [-> [(r' & Hr & [= <-]) | [_ [=]]]].
  apply bind_done_inv in H1 as (u2 & s2 & Hwb & H2).
  apply ask_inv in Hwb as [-> _].
  destruct (complete r) eqn:Hc; [|discriminate].
  injection H2 as <- <-. exists r.
  split; [exact Hr |]. split; [exact Hc |]. split; [reflexivity |].
  rewrite !trace_record, <- app_assoc. done.
Qed.


(** The [with] statement: either no directory could be made, or the body
    ran inside a fresh directory whose removal is asked for afterwards,
    whatever the body's outcome; the outcome of the body is the outcome
    of the statement when the removal succeeds. *)
Lemma run_inv w bitness repo_root st out st' :
  run w bitness repo_root st = (out, st') →
  (mkdtemp w (trace st) ".mu-pynsist" = None
   ∧ out = Raised (OSError "mkdtemp") ∧ st' = st)
  ∨ ∃ work_dir body_out s1,
      mkdtemp w (trace st) ".mu-pynsist" = Some work_dir
      ∧ run_body w bitness repo_root work_dir (record (EvMkdtemp work_dir) st)
        = (body_out, s1)
      ∧ trace st' = trace s1 ++ [EvRmtree work_dir]
      ∧ if rmtree_ok w (trace s1) work_dir
        then match body_out with
             | Done name =>
                 out = Done tt
                 ∧ stdout st' =
                     stdout s1
                     ++ [("Completed. Installer file is " +:+ name +:+ ".")
                         +:+ NL]
             | Raised e => out = Raised e
             end
        else out = Raised (OSError work_dir).
Proof.
  unfold run, bind, with_TemporaryDirectory.
  destruct (mkdtemp w (trace st) ".mu-pynsist") as [work_dir|].
  - destruct (run_body w bitness repo_root work_dir _) as [body_out s1] eqn:Hb.
    destruct (rmtree_ok w (trace s1) work_dir) eqn:Hrm.
    + destruct body_out as [name|e]; intros [= <- <-]; right;
        exists work_dir; eexists _, s1; rewrite Hrm; eauto 10.
    + intros [= <- <-]. right. exists work_dir, body_out, s1.
      rewrite Hrm. eauto 10.
  - intros [= <- <-]. by left.
Qed.

(** A run that completes: the block completed and the removal succeeded. *)
Lemma run_done_inv w bitness repo_root st st' :
  run w bitness repo_root st = (Done tt, st') →
  ∃ work_dir name s1,
    mkdtemp w (trace st) ".mu-pynsist" = Some work_dir
    ∧ run_body w bitness repo_root work_dir (record (EvMkdtemp work_dir) st)
      = (Done name, s1)
    ∧ rmtree_ok w (trace s1) work_dir = true
    ∧ trace st' = trace s1 ++ [EvRmtree work_dir]
    ∧ stdout st' =
        stdout s1
        ++ [("Completed. Installer file is " +:+ name +:+ ".") +:+ NL].
Proof.
  intros Hrun.
  apply run_inv in Hrun
    as [(_ & [=] & _) | (wd & o1 & s1 & Hsome & Hbody & Htr & Ho1)].
  destruct (rmtree_ok w (trace s1) wd) eqn:Hrm; [|discriminate].
  destruct o1 as [name|e]; [|discriminate]. destruct Ho1 as [_ Hout].
  exists wd, name, s1. done.
Qed.

(** The requests of a run: the making of the work directory, the requests
    of the block, the removal. *)
Lemma run_trace w bitness repo_root st work_dir :
  mkdtemp w (trace st) ".mu-pynsist" = Some work_dir →
  let body := run_body w bitness repo_root work_dir
                (record (EvMkdtemp work_dir) st) in
  trace (run w bitness repo_root st).2 = trace body.2 ++ [EvRmtree work_dir]
  ∧ (run w bitness repo_root st).1
    = if rmtree_ok w (trace body.2) work_dir
      then match body.1 with
           | Done _ => Done tt
           | Raised e => Raised e
           end
      else Raised (OSError work_dir).
Proof.
  intros Hmk body. unfold run, bind, with_TemporaryDirectory. rewrite Hmk.
  subst body.
  destruct (run_body w bitness repo_root work_dir _) as [[name|e] s1]; simpl;
    destruct (rmtree_ok w (trace s1) work_dir); done.
Qed.



Lemma ASSETS_none bitness :
  ASSETS !! bitness = None ↔ bitness ≠ "32" ∧ bitness ≠ "64".
Proof.
  unfold ASSETS. rewrite !lookup_insert_None, lookup_empty. naive_solver.
Qed.

Lemma main_valid w prog bitness setup_py_path :
  ASSETS !! bitness ≠ None →
  Py.endswith setup_py_path "setup.py" = true →
  main w [prog; bitness; setup_py_path]
  = run w bitness (abspath w (dirname w setup_py_path)).
Proof.
  intros Hb Hp. unfold main. rewrite Hp. by destruct (decide _).
Qed.

(** Forward execution, one statement at a time. *)
Lemma bind_step {A B} (m : M A) (k : A → M B) st a st1 r :
  m st = (Done a, st1) → k a st1 = r → bind m k st = r.
Proof. intros Hm <-. by apply bind_done. Qed.

Lemma run_body_freeze_failed w bitness repo_root work_dir st about title
    version p1 p2 p3 :
  let about_path := path_join w repo_root ["mu"; "__about__.py"] in
  let venv := path_join w work_dir ["mu-packaging-venv"] in
  let venv_python := path_join w venv ["Scripts"; "python.exe"] in
  let venv_cmd := [sys_executable w; "-m"; "venv"; venv] in
  let install_cmd := [venv_python; "-m"; "pip"; "install"; repo_root] in
  let freeze_cmd := [venv_python; "-m"; "pip"; "freeze"; "--all"] in
  read_about w (trace st) about_path = Some about →
  about !! "__title__" = Some title →
  about !! "__version__" = Some version →
  spawn w (trace st ++ [EvOpenRead about_path]) venv_cmd = Some p1 →
  spawn w ((trace st ++ [EvOpenRead about_path]) ++ [EvSpawn venv_cmd])
    install_cmd = Some p2 →
  spawn w (((trace st ++ [EvOpenRead about_path]) ++ [EvSpawn venv_cmd])
           ++ [EvSpawn install_cmd]) freeze_cmd = Some p3 →
  returncode p3 ≠ 0%Z →
  ∃ st',
    run_body w bitness repo_root work_dir st
    = (Raised (CalledProcessError (returncode p3) freeze_cmd), st')
    ∧ trace st'
      = trace st ++ [EvOpenRead about_path; EvSpawn venv_cmd;
                     EvSpawn install_cmd; EvSpawn freeze_cmd].
Proof.
  intros about_path venv venv_python venv_cmd install_cmd freeze_cmd
    Habout Ht Hv H1 H2 H3 Hrc.
  eexists. split.
  - unfold run_body.
    eapply bind_step; [reflexivity |].
    eapply bind_step; [apply ask_some; exact Habout |].
    eapply bind_step; [unfold getitem; rewrite Ht; reflexivity |].
    eapply bind_step; [unfold getitem; rewrite Hv; reflexivity |].
    eapply bind_step.
    { unfold create_packaging_venv.
      eapply bind_step; [reflexivity |].
      eapply bind_step; [apply subprocess_run_any_status; exact H1 |].
      reflexivity. }
    eapply bind_step.
    { unfold install_mu.
      eapply bind_step; [reflexivity |].
      eapply bind_step; [apply subprocess_run_any_status; exact H2 |].
      reflexivity. }
    apply bind_raised. apply pip_freeze_failed; [exact H3 | exact Hrc].
  - simpl. rewrite <- !app_assoc. reflexivity.
Qed.

(** ** The block under [with], step by step *)

Lemma print_bind_inv {A} text (k : unit → M A) st out st' :
  bind (print text) k st = (out, st') →
  ∃ s1, trace s1 = trace st ∧ k tt s1 = (out, st').
Proof. apply print_end_inv. Qed.

Lemma getitem_cases d key st out st' :
  getitem d key st = (out, st') →
  st' = st
  ∧ ((∃ v, d !! key = Some v ∧ out = Done v)
     ∨ (d !! key = None ∧ out = Raised (KeyError key))).
Proof. unfold getitem. destruct (d !! key); intros [= <- <-]; eauto. Qed.

Lemma create_packaging_venv_cases w target_directory name st out st' :
  create_packaging_venv w target_directory name st = (out, st') →
  let cmd :=
    [sys_executable w; "-m"; "venv"; path_join w target_directory [name]] in
  trace st' = trace st ++ [EvSpawn cmd]
  ∧ ((∃ p, spawn w (trace st) cmd = Some p)
       ∧ out = Done (path_join w (path_join w target_directory [name])
                       ["Scripts"; "python.exe"])
     ∨ spawn w (trace st) cmd = None ∧ ∃ e, out = Raised e).
Proof.
  intros H. cbv zeta. unfold create_packaging_venv, subprocess_run in H.
  apply print_bind_inv in H as (s1 & Hs1 & H).
  apply bind_inv in H as [(p & s2 & Hrun & H) | (e & Hrun & ->)].
  - apply ask_inv in Hrun as [-> [(p' & Hp & [= <-]) | [_ [=]]]].
    injection H as <- <-. rewrite trace_record, Hs1. split; [done |].
    left. rewrite <- Hs1. eauto.
  - apply ask_inv in Hrun as [-> [(p' & _ & [=]) | [Hnone _]]].
    rewrite trace_record, Hs1. split; [done |]. right. rewrite <- Hs1. eauto.
Qed.

Lemma install_mu_cases w python repo_root st out st' :
  install_mu w python repo_root st = (out, st') →
  let cmd := [python; "-m"; "pip"; "install"; repo_root] in
  trace st' = trace st ++ [EvSpawn cmd]
  ∧ ((∃ p, spawn w (trace st) cmd = Some p) ∧ out = Done tt
     ∨ spawn w (trace st) cmd = None ∧ ∃ e, out = Raised e).
Proof.
  intros H. cbv zeta. unfold install_mu, subprocess_run in H.
  apply print_bind_inv in H as (s1 & Hs1 & H).
  apply bind_inv in H as [(p & s2 & Hrun & H) | (e & Hrun & ->)].
  - apply ask_inv in Hrun as [-> [(p' & Hp & [= <-]) | [_ [=]]]].
    injection H as <- <-. rewrite trace_record, Hs1. split; [done |].
    left. rewrite <- Hs1. eauto.
  - apply ask_inv in Hrun as [-> [(p' & _ & [=]) | [Hnone _]]].
    rewrite trace_record, Hs1. split; [done |]. right. rewrite <- Hs1. eauto.
Qed.

Lemma pip_freeze_cases w python st out st' :
  pip_freeze w python "latin1" st = (out, st') →
  let cmd := [python; "-m"; "pip"; "freeze"; "--all"] in
  trace st' = trace st ++ [EvSpawn cmd]
  ∧ ((∃ p, spawn w (trace st) cmd = Some p
           ∧ returncode p = 0%Z
           ∧ out = Done (Py.splitlines (Py.decode_latin1 (proc_stdout p))))
     ∨ (∀ p, spawn w (trace st) cmd = Some p → returncode p ≠ 0%Z)
       ∧ ∃ e, out = Raised e).
Proof.
  intros H. cbv zeta.
  unfold pip_freeze, subprocess_check_output, subprocess_run, bytes_decode in H.
  apply print_bind_inv in H as (s1 & Hs1 & H). rewrite <- Hs1.
  apply bind_inv in H as [(output & s2 & Hout & H) | (e & Hout & ->)].
  - apply bind_done_inv in Hout as (p & s3 & Hp & Hout).
    apply ask_inv in Hp as [-> [(p' & Hp & [= <-]) | [_ [=]]]].
    destruct (Z.eqb_spec (returncode p) 0) as [Hrc|]; [|discriminate].
    injection Hout as <- <-. injection H as <- <-.
    split; [done |]. left. exists p. done.
  - apply bind_inv in Hout as [(p & s3 & Hp & Hout) | (e' & Hp & _)].
    + apply ask_inv in Hp as [-> [(p' & Hp & [= <-]) | [_ [=]]]].
      destruct (Z.eqb_spec (returncode p) 0) as [|Hrc]; [discriminate |].
      injection Hout as _ <-. split; [done |]. right. split; [|eauto].
      intros p' Hp'. rewrite Hp in Hp'. by injection Hp' as <-.
    + apply ask_inv in Hp as [-> [(p' & _ & [=]) | [Hnone _]]].
      split; [done |]. right. split; [|eauto].
      intros p' Hp'. rewrite Hnone in Hp'. discriminate.
Qed.

Lemma wheels_in_loop_trace_only w requirements :
  ∀ wheels s t,
    trace s = trace t →
    (wheels_in_loop w requirements wheels s).1
    = (wheels_in_loop w requirements wheels t).1.
Proof.
  induction requirements as [|r rest IH]; intros wheels s t Htr; [done |].
  rewrite wheels_in_loop_cons. unfold bind, print_end, ask, request.
  cbn [trace]. rewrite Htr.
  destruct (yarg_get w (trace t) (name_of r)) as [package|]; [|done].
  destruct (package_release package (version_of r)) as [releases|]; [|done].
  destruct (any_wheel releases); unfold print, print_end; apply IH; done.
Qed.

Lemma wheels_in_cases w requirements st out st' :
  wheels_in w requirements st = (out, st') →
  (wheels_in w requirements (State (trace st) [])).1 = out
  ∧ match out with
    | Done _ =>
        trace st'
        = trace st ++ ((fun r => EvYargGet (name_of r)) <$> requirements)
    | Raised _ =>
        ∃ n, trace st'
             = trace st
               ++ ((fun r => EvYargGet (name_of r)) <$> take n requirements)
    end.
Proof.
  unfold wheels_in. intros H. split.
  - unfold bind, print, print_end in *. simpl in *.
    erewrite wheels_in_loop_trace_only; [by rewrite H | done].
  - apply print_bind_inv in H as (s1 & Hs1 & H).
    apply wheels_in_loop_requests in H. rewrite Hs1 in H.
    destruct out as [wheels|e]; [done |].
    destruct H as (n & r & _ & H & _). eauto.
Qed.

Lemma create_pynsist_cfg_file_cases w target_directory encoding version
    icon_file license_file bitness pypi_wheels packages installer_name
    st out st' :
  create_pynsist_cfg_file w target_directory encoding
    (cfg_kw version icon_file license_file bitness pypi_wheels packages
       installer_name) st = (out, st') →
  trace st'
  = trace st
    ++ [EvWrite (path_join w target_directory ["pynsist.cfg"]) encoding
          (cfg_before_packages version icon_file license_file bitness
             pypi_wheels
           +:+ packages +:+ cfg_after_packages installer_name)]
  ∧ (out = Done (path_join w target_directory ["pynsist.cfg"])
     ∨ ∃ e, out = Raised e).
Proof.
  unfold create_pynsist_cfg_file. rewrite format_cfg. intros H.
  apply bind_inv in H as [(u1 & s1 & Hw & H) | (e & Hw & ->)].
  - apply ask_inv in Hw as [-> _].
    apply print_bind_inv in H as (s2 & Hs2 & H).
    apply print_bind_inv in H as (s3 & Hs3 & H).
    injection H as <- <-. rewrite Hs3, Hs2. split; [done | by left].
  - apply ask_inv in Hw as [-> _]. split; [done | eauto].
Qed.

Ltac open_requests H :=
  unfold freeze_requests in H; simpl in H;
  unfold venv_cmd, install_cmd, freeze_cmd, venv_python_of in H.

(** How far the block under [with] gets, by what the world answers:
    it fails before the dependency snapshot is there, or in the wheel
    check, or it writes the configuration file. *)
Lemma run_body_cases w bitness repo_root work_dir st out st' :
  run_body w bitness repo_root work_dir st = (out, st') →
  ((∀ title version lines,
      ¬ snapshot w repo_root work_dir (trace st) title version lines)
   ∧ (∃ e, out = Raised e)
   ∧ ∃ n, trace st'
          = trace st ++ take n (freeze_requests w repo_root work_dir))
  ∨ ∃ title version lines,
      snapshot w repo_root work_dir (trace st) title version lines
      ∧ let tr6 := trace st ++ freeze_requests w repo_root work_dir in
        let requirements := requirements_of title lines in
        ((∃ e n,
            (wheels_in w requirements (State tr6 [])).1 = Raised e
            ∧ out = Raised e
            ∧ trace st'
              = tr6 ++ ((fun r => EvYargGet (name_of r))
                          <$> take n requirements))
         ∨ ∃ wheels post,
             (wheels_in w requirements (State tr6 [])).1 = Done wheels
             ∧ trace st'
               = tr6
                 ++ ((fun r => EvYargGet (name_of r)) <$> requirements)
                 ++ EvWrite (path_join w work_dir ["pynsist.cfg"]) "latin1"
                      (cfg_text w (set_iteration w) bitness repo_root
                         title version requirements wheels)
                    :: post
             ∧ Forall after_configuration post).
Proof.
  unfold run_body. intros H.
  apply print_bind_inv in H as (s0 & Hs0 & H).
  apply bind_inv in H as [(about & s1 & Habout & H) | (e & Habout & ->)];
    unfold about_dict in Habout;
    apply ask_inv in Habout as [-> Habout]; rewrite Hs0 in Habout.
  2:{ destruct Habout as [(a & _ & [=]) | [Hnone _]]. left. split_and!.
      - intros t v l (about & p1 & p2 & p3 & Hr & _). congruence.
      - eauto.
      - exists 1%nat. by rewrite trace_record, Hs0. }
  destruct Habout as [(about' & Habout & [= <-]) | [_ [=]]].
  apply bind_inv in H as [(title & s2 & Ht & H) | (e & Ht & ->)];
    apply getitem_cases in Ht as [-> Ht].
  2:{ destruct Ht as [(v & _ & [=]) | [Hnone _]]. left. split_and!.
      - intros t v l (about' & p1 & p2 & p3 & Hr & Ht & _). congruence.
      - eauto.
      - exists 1%nat. by rewrite trace_record, Hs0. }
  destruct Ht as [(title' & Ht & [= <-]) | [_ [=]]].
  apply bind_inv in H as [(version & s3 & Hv & H) | (e & Hv & ->)];
    apply getitem_cases in Hv as [-> Hv].
  2:{ destruct Hv as [(v & _ & [=]) | [Hnone _]]. left. split_and!.
      - intros t v l (about' & p1 & p2 & p3 & Hr & _ & Hv & _). congruence.
      - eauto.
      - exists 1%nat. by rewrite trace_record, Hs0. }
  destruct Hv as [(version' & Hv & [= <-]) | [_ [=]]].
  apply bind_inv in H as [(python & s4 & Hvenv & H) | (e & Hvenv & ->)];
    apply create_packaging_venv_cases in Hvenv as [Hs4 Hvenv];
    rewrite trace_record, Hs0 in Hs4, Hvenv.
  2:{ destruct Hvenv as [[_ [=]] | [Hnone _]]. left. split_and!.
      - intros t v l (about' & p1 & p2 & p3 & _ & _ & _ & H1 & _).
        open_requests H1. congruence.
      - eauto.
      - exists 2%nat. rewrite Hs4, <- app_assoc. reflexivity. }
  destruct Hvenv as [[[p1 H1] [= ->]] | [_ [? [=]]]].
  apply bind_inv in H as [(u5 & s5 & Hinst & H) | (e & Hinst & ->)];
    apply install_mu_cases in Hinst as [Hs5 Hinst];
    rewrite Hs4 in Hs5, Hinst.
  2:{ destruct Hinst as [[_ [=]] | [Hnone _]]. left. split_and!.
      - intros t v l (about' & p1' & p2 & p3 & _ & _ & _ & _ & H2 & _).
        open_requests H2.
        rewrite <- app_assoc in Hnone. simpl in Hnone. congruence.
      - eauto.
      - exists 3%nat. rewrite Hs5, <- !app_assoc. reflexivity. }
  destruct Hinst as [[[p2 H2] _] | [_ [? [=]]]].
  apply bind_inv in H as [(lines & s6 & Hfreeze & H) | (e & Hfreeze & ->)];
    apply pip_freeze_cases in Hfreeze as [Hs6 Hfreeze];
    rewrite Hs5 in Hs6, Hfreeze.
  2:{ destruct Hfreeze as [(_ & _ & _ & [=]) | [Hbad _]]. left. split_and!.
      - intros t v l
          (about' & p1' & p2' & p3 & _ & _ & _ & _ & _ & H3 & Hrc & _).
        apply (Hbad p3); [|exact Hrc].
        open_requests H3.
        rewrite <- !app_assoc. simpl. exact H3.
      - eauto.
      - exists 4%nat. rewrite Hs6, <- !app_assoc. reflexivity. }
  destruct Hfreeze as [(p3 & H3 & Hrc & [= ->]) | [_ [? [=]]]].
  assert (trace s6 = trace st ++ freeze_requests w repo_root work_dir) as Htr6.
  { rewrite Hs6, <- !app_assoc. reflexivity. }
  right. exists title, version,
    (Py.splitlines (Py.decode_latin1 (proc_stdout p3))).
  split.
  { exists about, p1, p2, p3. split_and!; try done.
    - rewrite <- app_assoc in H2. exact H2.
    - rewrite <- !app_assoc in H3. exact H3. }
  cbv zeta. rewrite <- Htr6.
  apply bind_inv in H as [(wheels & s7 & Hwheels & H) | (e & Hwheels & ->)];
    apply wheels_in_cases in Hwheels as [Hout Hs7].
  2:{ left. destruct Hs7 as [n Hs7]. exists e, n. done. }
  right.
  apply bind_inv in H as [(cfg & s8 & Hcfg & H) | (e & Hcfg & ->)];
    apply create_pynsist_cfg_file_cases in Hcfg as [Hs8 Hcfg];
    rewrite Hs7 in Hs8.
  2:{ exists wheels, []. split; [exact Hout |]. split; [|constructor].
      rewrite Hs8, <- app_assoc. reflexivity. }
  match type of H with
  | ?m s8 = _ => assert (emits after_configuration m) as Hrest
  end.
  { unfold after_configuration, download_file, unzip_file, subprocess_run.
    emits_all. }
  destruct (Hrest s8) as (post & Hpost & Hall).
  rewrite H in Hpost. simpl in Hpost.
  exists wheels, post. split; [exact Hout |]. split; [|exact Hall].
  rewrite Hpost, Hs8, <- !app_assoc. reflexivity.
Qed.

Lemma snapshot_functional w repo_root work_dir tr title version lines
    title' version' lines' :
  snapshot w repo_root work_dir tr title version lines →
  snapshot w repo_root work_dir tr title' version' lines' →
  title = title' ∧ version = version' ∧ lines = lines'.
Proof.
  intros (about & p1 & p2 & p3 & Hr & Ht & Hv & _ & _ & H3 & _ & ->)
         (about' & p1' & p2' & p3' & Hr' & Ht' & Hv' & _ & _ & H3' & _ & ->).
  rewrite Hr in Hr'. injection Hr' as <-.
  rewrite H3 in H3'. injection H3' as <-.
  split_and!; congruence.
Qed.

Lemma written_texts_app tr1 tr2 :
  written_texts (tr1 ++ tr2) = written_texts tr1 ++ written_texts tr2.
Proof. apply omap_app. Qed.

Lemma index_requests_app tr1 tr2 :
  index_requests (tr1 ++ tr2) = index_requests tr1 ++ index_requests tr2.
Proof. apply omap_app. Qed.

Lemma index_requests_names (l : list string) :
  index_requests ((fun r => EvYargGet (name_of r)) <$> l) = name_of <$> l.
Proof.
  unfold index_requests. induction l as [|r l IH]; [done |].
  csimpl. by f_equal.
Qed.

Lemma written_texts_names (l : list string) :
  written_texts ((fun r => EvYargGet (name_of r)) <$> l) = [].
Proof. by induction l. Qed.

Lemma written_texts_after post :
  Forall after_configuration post → written_texts post = [].
Proof. induction 1 as [|e post He _ IH]; [done |]. by destruct e. Qed.

Lemma index_requests_after post :
  Forall after_configuration post → index_requests post = [].
Proof. induction 1 as [|e post He _ IH]; [done |]. by destruct e. Qed.

(** ** Runs, by how far they get *)

Lemma run_cases w bitness repo_root st :
  (mkdtemp w (trace st) ".mu-pynsist" = None
   ∧ trace (run w bitness repo_root st).2 = trace st)
  ∨ ∃ work_dir,
      mkdtemp w (trace st) ".mu-pynsist" = Some work_dir
      ∧ let tr0 := trace st ++ [EvMkdtemp work_dir] in
        ((∀ title version lines,
            ¬ snapshot w repo_root work_dir tr0 title version lines)
         ∧ ∃ n, trace (run w bitness repo_root st).2
                = tr0 ++ take n (freeze_requests w repo_root work_dir)
                  ++ [EvRmtree work_dir])
        ∨ ∃ title version lines,
            snapshot w repo_root work_dir tr0 title version lines
            ∧ let tr6 := tr0 ++ freeze_requests w repo_root work_dir in
              let requirements := requirements_of title lines in
              ((∃ e n,
                  (wheels_in w requirements (State tr6 [])).1 = Raised e
                  ∧ trace (run w bitness repo_root st).2
                    = tr6 ++ ((fun r => EvYargGet (name_of r))
                                <$> take n requirements)
                      ++ [EvRmtree work_dir])
               ∨ ∃ wheels post,
                   (wheels_in w requirements (State tr6 [])).1 = Done wheels
                   ∧ trace (run w bitness repo_root st).2
                     = tr6
                       ++ ((fun r => EvYargGet (name_of r)) <$> requirements)
                       ++ EvWrite (path_join w work_dir ["pynsist.cfg"])
                            "latin1"
                            (cfg_text w (set_iteration w) bitness repo_root
                               title version requirements wheels)
                          :: post ++ [EvRmtree work_dir]
                   ∧ Forall after_configuration post).
Proof.
  destruct (mkdtemp w (trace st) ".mu-pynsist") as [wd|] eqn:Hmk.
  2:{ left. split; [done |].
      unfold run, bind, with_TemporaryDirectory. by rewrite Hmk. }
  right. exists wd. split; [done |]. cbv zeta.
  destruct (run_trace w bitness repo_root st wd Hmk) as [-> _].
  destruct (run_body w bitness repo_root wd (record (EvMkdtemp wd) st))
    as [out s1] eqn:Hbody.
  apply run_body_cases in Hbody
    as [(Hno & _ & n & Htr)
       | (title & version & lines & Hsnap
          & [(e & n & Hw & _ & Htr) | (wheels & post & Hw & Htr & Hpost)])];
    rewrite trace_record in *; simpl.
  - left. split; [exact Hno |]. exists n. rewrite Htr, <- !app_assoc. done.
  - right. exists title, version, lines. split; [exact Hsnap |].
    left. exists e, n. split; [exact Hw |]. rewrite Htr, <- !app_assoc. done.
  - right. exists title, version, lines. split; [exact Hsnap |].
    right. exists wheels, post. split; [exact Hw |]. split; [|exact Hpost].
    rewrite Htr, <- !app_assoc. reflexivity.
Qed.

Lemma reaches_configuration_functional w repo_root st work_dir title version
    lines wheels work_dir' title' version' lines' wheels' :
  reaches_configuration w repo_root st work_dir title version lines wheels →
  reaches_configuration w repo_root st work_dir' title' version' lines'
    wheels' →
  work_dir = work_dir' ∧ title = title' ∧ version = version'
  ∧ lines = lines' ∧ wheels = wheels'.
Proof.
  intros (Hmk & Hsnap & Hw) (Hmk' & Hsnap' & Hw').
  rewrite Hmk in Hmk'. injection Hmk' as <-.
  destruct (snapshot_functional _ _ _ _ _ _ _ _ _ _ Hsnap Hsnap')
    as (<- & <- & <-).
  rewrite Hw in Hw'. by injection Hw' as <-.
Qed.

(** Whether a run gets as far as the configuration file is settled by
    what the world answers. *)
Lemma reaches_configuration_or_not w bitness repo_root st :
  (∃ work_dir title version lines wheels post,
     reaches_configuration w repo_root st work_dir title version lines wheels
     ∧ trace (run w bitness repo_root st).2
       = (trace st ++ [EvMkdtemp work_dir])
         ++ freeze_requests w repo_root work_dir
         ++ ((fun r => EvYargGet (name_of r))
               <$> requirements_of title lines)
         ++ EvWrite (path_join w work_dir ["pynsist.cfg"]) "latin1"
              (cfg_text w (set_iteration w) bitness repo_root title version
                 (requirements_of title lines) wheels)
            :: post ++ [EvRmtree work_dir]
     ∧ Forall after_configuration post)
  ∨ ((∀ work_dir title version lines wheels,
        ¬ reaches_configuration w repo_root st work_dir title version lines
            wheels)
     ∧ written_texts (trace (run w bitness repo_root st).2)
       = written_texts (trace st)).
Proof.
  destruct (run_cases w bitness repo_root st)
    as [[Hmk Htr]
       | (wd & Hmk
          & [(Hno & n & Htr)
            | (title & version & lines & Hsnap
               & [(e & n & Hw & Htr) | (wheels & post & Hw & Htr & Hpost)])])].
  - right. split; [|by rewrite Htr].
    intros wd t v l wh (Hmk' & _). congruence.
  - right. split.
    + intros wd' t v l wh (Hmk' & Hsnap' & _).
      rewrite Hmk in Hmk'. injection Hmk' as <-. by eapply Hno.
    + rewrite Htr, !written_texts_app. simpl.
      assert (written_texts (take n (freeze_requests w repo_root wd)) = [])
        as ->; [|by rewrite !app_nil_r].
      by destruct n as [|[|[|[|[|n]]]]].
  - right. split.
    + intros wd' t v l wh (Hmk' & Hsnap' & Hw').
      rewrite Hmk in Hmk'. injection Hmk' as <-.
      destruct (snapshot_functional _ _ _ _ _ _ _ _ _ _ Hsnap Hsnap')
        as (<- & <- & <-).
      rewrite Hw in Hw'. discriminate.
    + rewrite Htr, !written_texts_app, written_texts_names. simpl.
      by rewrite !app_nil_r.
  - left. exists wd, title, version, lines, wheels, post.
    split; [done |]. split; [|exact Hpost].
    rewrite Htr, <- !app_assoc. reflexivity.
Qed.

Lemma written_texts_reaches tr0 evs1 post path encoding text last :
  Forall after_configuration post →
  written_texts evs1 = [] →
  written_texts last = [] →
  written_texts (tr0 ++ evs1 ++ EvWrite path encoding text :: post ++ last)
  = written_texts tr0 ++ [text].
Proof.
  intros Hpost H1 Hlast.
  rewrite !written_texts_app, H1. simpl.
  by rewrite written_texts_app, (written_texts_after _ Hpost), Hlast.
Qed.

(** ** Environments that differ where the script does not look *)

Lemma bind_ext {A B} (m m' : M A) (k k' : A → M B) st :
  m st = m' st → (∀ a s, k a s = k' a s) → bind m k st = bind m' k' st.
Proof.
  intros Hm Hk. unfold bind. rewrite Hm.
  destruct (m' st) as [[a|e] s]; [apply Hk | done].
Qed.

Lemma wheels_in_loop_ext w w' requirements :
  (∀ tr name, yarg_get w tr name = yarg_get w' tr name) →
  ∀ wheels st,
    wheels_in_loop w requirements wheels st
    = wheels_in_loop w' requirements wheels st.
Proof.
  intros Hindex.
  induction requirements as [|r rest IH]; intros wheels st; [done |].
  rewrite !wheels_in_loop_cons.
  apply bind_ext; [done |]. intros _ s1.
  apply bind_ext; [unfold ask; by rewrite Hindex |]. intros package s2.
  destruct (package_release package (version_of r)) as [releases|]; [|done].
  destruct (any_wheel releases); (apply bind_ext; [done |]); intros _ s3;
    apply IH.
Qed.

Lemma wheels_in_ext w w' requirements st :
  (∀ tr name, yarg_get w tr name = yarg_get w' tr name) →
  wheels_in w requirements st = wheels_in w' requirements st.
Proof.
  intros Hindex. unfold wheels_in. apply bind_ext; [done |]. intros _ s.
  by apply wheels_in_loop_ext.
Qed.

Lemma subprocess_run_statuses {B} w status cmd (k k' : M B) st :
  is_freeze cmd = false →
  (∀ s, k s = k' s) →
  bind (subprocess_run (with_statuses w status) cmd) (fun _ => k) st
  = bind (subprocess_run w cmd) (fun _ => k') st.
Proof.
  intros Hcmd Hk. unfold bind, subprocess_run, ask, request. simpl.
  rewrite Hcmd. destruct (spawn w (trace st) cmd) as [p|]; simpl; [apply Hk | done].
Qed.

Lemma create_pynsist_cfg_file_ext w w' target_directory encoding kw st :
  path_join w = path_join w' →
  write_ok w = write_ok w' →
  create_pynsist_cfg_file w target_directory encoding kw st
  = create_pynsist_cfg_file w' target_directory encoding kw st.
Proof.
  intros Hjoin Hwrite. unfold create_pynsist_cfg_file. rewrite Hjoin.
  destruct (Py.format PYNSIST_CFG_TEMPLATE kw) as [payload|e];
    [|reflexivity].
  unfold bind, ask. rewrite Hwrite. reflexivity.
Qed.

Lemma run_body_statuses w status bitness repo_root work_dir st :
  run_body (with_statuses w status) bitness repo_root work_dir st
  = run_body w bitness repo_root work_dir st.
Proof.
  unfold run_body.
  apply bind_ext; [done |]. intros _ s0.
  apply bind_ext; [done |]. intros about s1.
  apply bind_ext; [done |]. intros title s2.
  apply bind_ext; [done |]. intros version s3.
  apply bind_ext.
  { unfold create_packaging_venv. apply bind_ext; [done |]. intros _ s.
    by apply subprocess_run_statuses. }
  intros python s4.
  apply bind_ext.
  { unfold install_mu. apply bind_ext; [done |]. intros _ s.
    by apply subprocess_run_statuses. }
  intros _ s5.
  apply bind_ext; [done |]. intros lines s6.
  apply bind_ext; [by apply wheels_in_ext |]. intros wheels s7.
  apply bind_ext.
  { change (path_join (with_statuses w status)) with (path_join w).
    change (set_iteration (with_statuses w status)) with (set_iteration w).
    by apply create_pynsist_cfg_file_ext. }
  intros cfg s8.
  apply bind_ext; [done |]. intros _ s9.
  apply bind_ext; [done |]. intros url s10.
  apply bind_ext; [done |]. intros filename s11.
  apply bind_ext; [done |]. intros _ s12.
  apply bind_ext; [done |]. intros _ s13.
  apply bind_ext; [done |]. intros _ s14.
  apply subprocess_run_statuses; [done |]. intros s15.
  apply bind_ext; [done |]. intros _ s16.
  apply subprocess_run_statuses; [done |]. intros s17.
  done.
Qed.

Lemma run_statuses w status bitness repo_root st :
  run (with_statuses w status) bitness repo_root st
  = run w bitness repo_root st.
Proof.
  unfold run. apply bind_ext; [|done].
  unfold with_TemporaryDirectory. simpl.
  destruct (mkdtemp w (trace st) ".mu-pynsist") as [wd|]; [|done].
  by rewrite run_body_statuses.
Qed.

Lemma reaches_configuration_with_order w o repo_root st work_dir title version
    lines wheels :
  reaches_configuration (with_order w o) repo_root st work_dir title version
    lines wheels
  ↔ reaches_configuration w repo_root st work_dir title version lines wheels.
Proof.
  unfold reaches_configuration.
  rewrite (wheels_in_ext (with_order w o) w); done.
Qed.

(** ** Temporary directories *)


(** ** Set iteration order *)

Lemma packages_from_Permutation o1 o2 requirements wheels :
  packages_from o1 requirements wheels ≡ₚ packages_from o2 requirements wheels.
Proof.
  unfold packages_from. apply fmap_Permutation.
  by rewrite (iter_perm o1), (iter_perm o2).
Qed.

Lemma iter_small o1 o2 (X : gset string) :
  (size X ≤ 1)%nat → iter o1 X = iter o2 X.
Proof.
  intros Hsize. pose proof (iter_perm o1 X) as H1.
  pose proof (iter_perm o2 X) as H2. unfold size, set_size in Hsize.
  simpl in Hsize.
  destruct (elements X) as [|x [|y l]]; [| |simpl in Hsize; lia].
  - apply Permutation_nil_r in H1, H2. congruence.
  - apply Permutation_singleton_r in H1, H2. congruence.
Qed.

(** ** Lemmas for the claims *)

Lemma names_disjoint_distinct o requirements wheels n :
  (∀ r1 r2, r1 ∈ requirements → r2 ∈ requirements →
            name_of r1 = name_of r2 → r1 = r2) →
  wheels `sublist_of` requirements →
  n ∈ name_of <$> wheels → n ∉ packages_from o requirements wheels.
Proof.
  intros Hdistinct Hsub Hw Hp.
  apply list_elem_of_fmap in Hw as (r & -> & Hr).
  apply elem_of_packages_from in Hp as (r' & Hin & Hout & Heq).
  assert (r = r') as ->; [|done].
  apply Hdistinct; [by eapply sublist_elem_of | done | done].
Qed.

Lemma elem_of_written_texts path encoding text evs :
  EvWrite path encoding text ∈ evs → text ∈ written_texts evs.
Proof.
  intros Hin. unfold written_texts. apply list_elem_of_omap.
  by exists (EvWrite path encoding text).
Qed.

Lemma requirements_of_length title lines :
  (length (requirements_of title lines)
   + length (filter (fun l => name_of l = title) lines)
   = length lines)%nat.
Proof.
  unfold requirements_of. induction lines as [|l ls IH]; [done |].
  rewrite !filter_cons. destruct (decide (name_of l = title));
    destruct (decide (name_of l ≠ title)); simpl; try done; lia.
Qed.



(** The text files a run writes: the configuration file, when the run
    gets that far, and nothing else. *)
Lemma run_texts w bitness repo_root st :
  (∃ work_dir title version lines wheels,
     reaches_configuration w repo_root st work_dir title version lines wheels
     ∧ written_texts (trace (run w bitness repo_root st).2)
       = written_texts (trace st)
         ++ [cfg_text w (set_iteration w) bitness repo_root title version
               (requirements_of title lines) wheels])
  ∨ ((∀ work_dir title version lines wheels,
        ¬ reaches_configuration w repo_root st work_dir title version lines
            wheels)
     ∧ written_texts (trace (run w bitness repo_root st).2)
       = written_texts (trace st)).
Proof.
  destruct (reaches_configuration_or_not w bitness repo_root st)
    as [(wd & title & version & lines & wheels & post & Hreach & Htr & Hpost)
       | Hnot]; [left | by right].
  exists wd, title, version, lines, wheels. split; [exact Hreach |].
  rewrite Htr.
  rewrite (app_assoc (freeze_requests w repo_root wd)).
  rewrite (written_texts_reaches _ _ post); [| exact Hpost | | done].
  - rewrite written_texts_app. simpl. by rewrite app_nil_r.
  - by rewrite written_texts_app, written_texts_names.
Qed.

(** * The claims *)

(** C8. For every requirements list and every behaviour of the package
    index, the list [wheels_in] returns is an order-preserving sublist of
    its input: each returned entry is an entry of the input, unchanged,
    in the same relative order and no more often than in the input. *)
Theorem wheels_in_is_subsequence w requirements st wheels st' :
  wheels_in w requirements st = (Done wheels, st') →
  wheels `sublist_of` requirements
  ∧ (∀ x, x ∈ wheels → x ∈ requirements)
  ∧ (length wheels ≤ length requirements)%nat.
Proof.
  intros H. apply wheels_in_sublist_of in H. split_and!.
  - done.
  - intros x. by apply sublist_elem_of.
  - by apply sublist_length.
Qed.

Lemma wheels_in_is_subsequence_witness :
  ["pip==9.0.1"] `sublist_of` ["pip==9.0.1"; "alpha==1.0"; "beta==2.0"]
  ∧ (∀ x, x ∈ ["pip==9.0.1"] → x ∈ ["pip==9.0.1"; "alpha==1.0"; "beta==2.0"])
  ∧ (length ["pip==9.0.1"]
     ≤ length ["pip==9.0.1"; "alpha==1.0"; "beta==2.0"])%nat.
Proof.
  apply (wheels_in_is_subsequence (sample_world ascending_order all_succeed)
           ["pip==9.0.1"; "alpha==1.0"; "beta==2.0"] init ["pip==9.0.1"]
           (wheels_in (sample_world ascending_order all_succeed)
              ["pip==9.0.1"; "alpha==1.0"; "beta==2.0"] init).2).
  vm_compute. reflexivity.
Defined.

(** C2, as stated, fails: when two entries of the requirement list name
    the same package and only one of them has a wheel, that name is both
    among the wheels and among the extra packages. *)
Lemma wheels_and_packages_share_a_name :
  ¬ (∀ w requirements st wheels st',
       wheels_in w requirements st = (Done wheels, st') →
       let packages := packages_from (set_iteration w) requirements wheels in
       (∀ n, n ∈ name_of <$> wheels → n ∉ packages)
       ∧ (∀ n, (n ∈ name_of <$> wheels ∨ n ∈ packages)
               ↔ n ∈ name_of <$> requirements)).
Proof.
  intros Hclaim.
  destruct (Hclaim two_versions_world ["a==1"; "a==2"] init ["a==1"]
              (wheels_in two_versions_world ["a==1"; "a==2"] init).2)
    as [Hdisjoint _]; [vm_compute; reflexivity |].
  apply (Hdisjoint "a").
  - vm_compute. apply list_elem_of_here.
  - apply elem_of_packages_from. exists "a==2". split_and!.
    + apply list_elem_of_further, list_elem_of_here.
    + intros Hin. apply list_elem_of_singleton in Hin. discriminate.
    + vm_compute. reflexivity.
Qed.

(** C2, amended. For every requirement list, the names of the wheels
    [wheels_in] returns and the extra packages [packages_from] returns
    hold together exactly the package names of the list.  The two are
    disjoint whenever different entries of the list name different
    packages, as the lines of pip freeze do; an entry may occur more
    than once. *)
Theorem wheels_and_packages_partition w requirements st wheels st' :
  wheels_in w requirements st = (Done wheels, st') →
  let packages := packages_from (set_iteration w) requirements wheels in
  (∀ n, (n ∈ name_of <$> wheels ∨ n ∈ packages)
        ↔ n ∈ name_of <$> requirements)
  ∧ ((∀ r1 r2, r1 ∈ requirements → r2 ∈ requirements →
               name_of r1 = name_of r2 → r1 = r2) →
     ∀ n, n ∈ name_of <$> wheels → n ∉ packages).
Proof.
  intros H. apply wheels_in_sublist_of in H. split.
  - intros n. by apply names_covered.
  - intros Hdistinct n. by apply names_disjoint_distinct.
Qed.

Lemma wheels_and_packages_partition_witness :
  let requirements := ["pip==9.0.1"; "alpha==1.0"; "pip==9.0.1"] in
  let wheels := ["pip==9.0.1"; "pip==9.0.1"] in
  let packages := packages_from ascending_order requirements wheels in
  (∀ n, (n ∈ name_of <$> wheels ∨ n ∈ packages)
        ↔ n ∈ name_of <$> requirements)
  ∧ (∀ n, n ∈ name_of <$> wheels → n ∉ packages).
Proof.
  intros requirements wheels packages.
  destruct (wheels_and_packages_partition
              (sample_world ascending_order all_succeed) requirements init
              wheels
              (wheels_in (sample_world ascending_order all_succeed)
                 requirements init).2) as [Hunion Hdisjoint];
    [vm_compute; reflexivity |].
  split; [exact Hunion |]. apply Hdisjoint.
  intros r1 r2 H1 H2 Heq. unfold requirements in H1, H2.
  rewrite !elem_of_cons, elem_of_nil in H1, H2.
  destruct H1 as [-> | [-> | [-> | []]]], H2 as [-> | [-> | [-> | []]]];
    try reflexivity; vm_compute in Heq; discriminate.
Defined.

(** C10. The two subsets reach the configuration file in different
    shapes.  The text a run writes into a text file is the configuration
    in which the [pypi_wheels] entries are the wheel list joined line by
    line and the computed [packages] entries are the result of
    [packages_from] joined line by line.  Every entry of the wheel list is
    an entry of the requirement list as pip freeze printed it, the full
    pin where the line is a pin.  The elements of [packages_from] are
    exactly the names of the requirements that are not among the wheels:
    the requirement itself when it holds no [==], otherwise the text
    before its first [==]; none of them holds a [==]. *)
Theorem wheels_pinned_packages_bare w bitness repo_root st path encoding text
    evs :
  trace (run w bitness repo_root st).2 = trace st ++ evs →
  EvWrite path encoding text ∈ evs →
  ∃ work_dir title version lines wheels,
    reaches_configuration w repo_root st work_dir title version lines wheels
    ∧ let requirements := requirements_of title lines in
      let packages := packages_from (set_iteration w) requirements wheels in
      path = path_join w work_dir ["pynsist.cfg"]
      ∧ text
        = cfg_before_packages version
            (path_join w repo_root ["package"; "icons"; "win_icon.ico"])
            (path_join w repo_root ["LICENSE"]) bitness (Py.join SEP wheels)
          +:+ Py.join SEP packages
          +:+ cfg_after_packages (installer_name_of title version bitness)
      ∧ wheels `sublist_of` requirements
      ∧ (∀ r, r ∈ requirements →
              r = name_of r ∨ ∃ v, r = name_of r +:+ "==" +:+ v)
      ∧ (∀ p, p ∈ packages
              ↔ ∃ r, r ∈ requirements ∧ (r ∉ wheels) ∧ p = name_of r)
      ∧ (∀ p, p ∈ packages → ∀ a b, p ≠ a +:+ "==" +:+ b).
Proof.
  intros Htrace Hin.
  destruct (reaches_configuration_or_not w bitness repo_root st)
    as [(wd & title & version & lines & wheels & post & Hreach & Htr & Hpost)
       | [_ Hnone]].
  2:{ exfalso. apply elem_of_written_texts in Hin.
      rewrite Htrace, written_texts_app in Hnone.
      rewrite <- (app_nil_r (written_texts (trace st))) in Hnone at 2.
      apply app_inv_head in Hnone. rewrite Hnone in Hin.
      by apply elem_of_nil in Hin. }
  exists wd, title, version, lines, wheels. split; [exact Hreach |].
  rewrite Htr, <- app_assoc in Htrace. apply app_inv_head in Htrace.
  subst evs.
  assert (EvWrite path encoding text
          = EvWrite (path_join w wd ["pynsist.cfg"]) "latin1"
              (cfg_text w (set_iteration w) bitness repo_root title version
                 (requirements_of title lines) wheels)) as Heq.
  { apply elem_of_app in Hin as [Hin | Hin];
      [apply list_elem_of_singleton in Hin; discriminate |].
    apply elem_of_app in Hin as [Hin | Hin].
    { unfold freeze_requests in Hin.
      rewrite !elem_of_cons, elem_of_nil in Hin.
      destruct Hin as [[=] | [[=] | [[=] | [[=] | []]]]]. }
    apply elem_of_app in Hin as [Hin | Hin];
      [apply list_elem_of_fmap in Hin as (r & [=] & _) |].
    apply elem_of_cons in Hin as [Hin | Hin]; [exact Hin |].
    apply elem_of_app in Hin as [Hin | Hin].
    - rewrite Forall_forall in Hpost. by destruct (Hpost _ Hin).
    - apply list_elem_of_singleton in Hin. discriminate. }
  injection Heq as -> -> ->.
  destruct Hreach as (_ & _ & Hwheels).
  assert (wheels `sublist_of` requirements_of title lines) as Hsub.
  { eapply wheels_in_sublist_of. apply injective_projections; [exact Hwheels |].
    reflexivity. }
  cbv zeta. split_and!.
  - reflexivity.
  - reflexivity.
  - exact Hsub.
  - intros r _. apply name_of_split.
  - intros p. apply elem_of_packages_from.
  - intros p Hp. apply elem_of_packages_from in Hp as (r & _ & _ & ->).
    apply name_of_bare.
Qed.

Lemma wheels_pinned_packages_bare_witness :
  let w := sample_world descending_order all_succeed in
  let text := "
[Application]
name=Mu
version=1.2.3
entry_point=mu.app:run
icon=repo\package\icons\win_icon.ico
publisher=Nicholas H.Tollervey
license_file=repo\LICENSE

[Command mu-debug]
entry_point=mu.app:debug

[Command pgzrun]
entry_point=pgzero.runner:main

[Python]
version=3.6.3
bitness=64
format=bundled

[Include]
pypi_wheels=
    pip==9.0.1

packages=
    tkinter
    _tkinter
    turtle
    beta
    alpha

files=lib

[Build]
installer_name=Foo_1.2.3_win64.exe
" in
  ∃ work_dir title version lines wheels,
    reaches_configuration w "repo" init work_dir title version lines wheels
    ∧ let requirements := requirements_of title lines in
      let packages := packages_from (set_iteration w) requirements wheels in
      sample_join "tmp1.mu-pynsist" ["pynsist.cfg"]
      = path_join w work_dir ["pynsist.cfg"]
      ∧ text
        = cfg_before_packages version
            (path_join w "repo" ["package"; "icons"; "win_icon.ico"])
            (path_join w "repo" ["LICENSE"]) "64" (Py.join SEP wheels)
          +:+ Py.join SEP packages
          +:+ cfg_after_packages (installer_name_of title version "64")
      ∧ wheels `sublist_of` requirements
      ∧ (∀ r, r ∈ requirements →
              r = name_of r ∨ ∃ v, r = name_of r +:+ "==" +:+ v)
      ∧ (∀ p, p ∈ packages
              ↔ ∃ r, r ∈ requirements ∧ (r ∉ wheels) ∧ p = name_of r)
      ∧ (∀ p, p ∈ packages → ∀ a b, p ≠ a +:+ "==" +:+ b).
Proof.
  intros w text.
  apply (wheels_pinned_packages_bare w "64" "repo" init
           (sample_join "tmp1.mu-pynsist" ["pynsist.cfg"]) "latin1" text
           (trace (run w "64" "repo" init).2)).
  - reflexivity.
  - apply list_elem_of_lookup. exists 8%nat. vm_compute. reflexivity.
Defined.

(** C6. The dependency snapshot is the list of lines of what pip freeze
    printed, in the order printed, and the requirement list [run] goes on
    with is that list with exactly the lines whose package name equals
    the descriptor's [__title__] taken out, every other line staying
    where it was and as it was: a pin of the title itself, whatever its
    version, is dropped, a pin of another name is kept.  It is this list
    the run checks for wheels: the package index is asked about the
    names of its entries, in order, and about nothing else; about all of
    them when the wheel check returns. *)
Theorem freeze_without_own_package w bitness repo_root st work_dir title
    version lines :
  mkdtemp w (trace st) ".mu-pynsist" = Some work_dir →
  snapshot w repo_root work_dir (trace st ++ [EvMkdtemp work_dir])
    title version lines →
  let requirements := requirements_of title lines in
  let asked :=
    index_requests
      (drop (length (trace st)) (trace (run w bitness repo_root st).2)) in
  (∃ p, spawn w ((trace st ++ [EvMkdtemp work_dir])
                 ++ take 3 (freeze_requests w repo_root work_dir))
          (freeze_cmd w work_dir) = Some p
        ∧ lines = Py.splitlines (Py.decode_latin1 (proc_stdout p)))
  ∧ requirements `sublist_of` lines
  ∧ (∀ l, l ∈ requirements ↔ l ∈ lines ∧ name_of l ≠ title)
  ∧ (∀ v, contains_char "=" title = false →
          title +:+ "==" +:+ v ∉ requirements)
  ∧ (∀ n v, contains_char "=" n = false → n ≠ title →
            n +:+ "==" +:+ v ∈ lines → n +:+ "==" +:+ v ∈ requirements)
  ∧ (length requirements
     + length (filter (fun l => name_of l = title) lines)
     = length lines)%nat
  ∧ asked `prefix_of` name_of <$> requirements
  ∧ ∀ wheels,
      (wheels_in w requirements
         (State ((trace st ++ [EvMkdtemp work_dir])
                 ++ freeze_requests w repo_root work_dir) [])).1
      = Done wheels →
      asked = name_of <$> requirements.
Proof.
  intros Hmk Hsnap requirements asked.
  assert (∃ n,
            asked = name_of <$> take n requirements
            ∧ ∀ wheels,
                (wheels_in w requirements
                   (State ((trace st ++ [EvMkdtemp work_dir])
                           ++ freeze_requests w repo_root work_dir) [])).1
                = Done wheels →
                asked = name_of <$> requirements) as (n & Hasked & Hall).
  { unfold asked.
    destruct (run_cases w bitness repo_root st)
      as [[Hnone _]
         | (wd & Hmk'
            & [(Hno & _)
              | (title' & version' & lines' & Hsnap'
                 & [(e & n & Hw & Htr)
                   | (wheels & post & Hw & Htr & Hpost)])])];
      [congruence | ..];
      rewrite Hmk in Hmk'; injection Hmk' as <-.
    - by destruct (Hno title version lines).
    - destruct (snapshot_functional _ _ _ _ _ _ _ _ _ _ Hsnap Hsnap')
        as (<- & <- & <-).
      exists n.
      split; [|intros wheels Hdone; unfold requirements in Hdone; congruence].
      rewrite Htr, <- !app_assoc, drop_app_length.
      rewrite !index_requests_app, index_requests_names. simpl.
      by rewrite app_nil_r.
    - destruct (snapshot_functional _ _ _ _ _ _ _ _ _ _ Hsnap Hsnap')
        as (<- & <- & <-).
      assert (index_requests
                (drop (length (trace st)) (trace (run w bitness repo_root st).2))
              = name_of <$> requirements) as Heq.
      { rewrite Htr, <- !app_assoc, drop_app_length.
        rewrite !index_requests_app, index_requests_names. simpl.
        rewrite index_requests_app, (index_requests_after _ Hpost). simpl.
        by rewrite app_nil_r. }
      exists (length requirements). split; [by rewrite firstn_all |].
      intros _ _. exact Heq. }
  split_and!.
  - destruct Hsnap as (about & p1 & p2 & p3 & _ & _ & _ & _ & _ & H3 & _ & ->).
    by exists p3.
  - apply requirements_of_sublist.
  - intros l. apply elem_of_requirements_of.
  - intros v Htitle Hin. apply elem_of_requirements_of in Hin as [_ Hne].
    by rewrite name_of_pin in Hne.
  - intros name v Hname Hne Hin. apply elem_of_requirements_of.
    split; [done |]. by rewrite name_of_pin.
  - apply requirements_of_length.
  - rewrite Hasked. exists (name_of <$> drop n requirements).
    by rewrite <- fmap_app, take_drop.
  - exact Hall.
Qed.

Lemma freeze_without_own_package_witness :
  requirements_of "Foo" ["pip==9.0.1"; "Foo==1.2.3"; "alpha==1.0"; "beta==2.0"]
  `sublist_of` ["pip==9.0.1"; "Foo==1.2.3"; "alpha==1.0"; "beta==2.0"]
  ∧ ("Foo" +:+ "==" +:+ "1.2.3"
     ∉ requirements_of "Foo"
         ["pip==9.0.1"; "Foo==1.2.3"; "alpha==1.0"; "beta==2.0"])
  ∧ index_requests
      (trace (run (sample_world ascending_order all_succeed)
                "64" "repo" init).2)
    = name_of
        <$> requirements_of "Foo"
              ["pip==9.0.1"; "Foo==1.2.3"; "alpha==1.0"; "beta==2.0"].
Proof.
  destruct (freeze_without_own_package
              (sample_world ascending_order all_succeed) "64" "repo" init
              "tmp1.mu-pynsist" "Foo" "1.2.3"
              ["pip==9.0.1"; "Foo==1.2.3"; "alpha==1.0"; "beta==2.0"])
    as (_ & Hsub & _ & Hown & _ & _ & _ & Hall).
  - reflexivity.
  - exists (<["__title__" := "Foo"]> (<["__version__" := "1.2.3"]> ∅)),
      (Completed 0 []), (Completed 0 []),
      (Completed 0 (list_byte_of_string sample_freeze)).
    split_and!; reflexivity.
  - split; [exact Hsub |]. split; [by apply Hown |].
    apply (Hall ["pip==9.0.1"]). vm_compute. reflexivity.
Defined.

(** C4. Invalid command-line input (an argument vector that is not the
    program name followed by exactly two arguments, a bitness other than
    ['32'] and ['64'], or a descriptor path that does not end in
    [setup.py]) ends the program at once through [sys.exit] with a
    message that says what is wrong, hence with a non-zero exit status;
    no request of any kind has been made by then and nothing printed. *)
Theorem invalid_arguments_exit_first w argv st :
  length argv ≠ 3
  ∨ (∃ b, argv !! 1%nat = Some b ∧ b ≠ "32" ∧ b ≠ "64")
  ∨ (∃ p, argv !! 2%nat = Some p ∧ ¬ ∃ pre, p = pre +:+ "setup.py") →
  ∃ msg,
    main w argv st = (Raised (SystemExit msg), st)
    ∧ exit_status (Raised (SystemExit msg)) ≠ 0%Z
    ∧ (msg = "Supply bitness (32 or 64) and path to setup.py."
       ∨ (∃ b, argv !! 1%nat = Some b
               ∧ msg = "Invalid bitness " +:+ b +:+ ": use 32 or 64.")
       ∨ (∃ p, argv !! 2%nat = Some p
               ∧ msg = "Invalid path to setup.py: " +:+ p +:+ ".")).
Proof.
  intros Hbad.
  destruct argv as [|prog [|bitness [|setup_py_path [|extra argv]]]];
    try (eexists; split_and!; [reflexivity | done | by left]).
  unfold main.
  destruct (decide (ASSETS !! bitness = None)) as [Hnone|Hsome].
  { eexists. split_and!; [reflexivity | done |]. right. left. by exists bitness. }
  destruct (Py.endswith setup_py_path "setup.py") eqn:Hends.
  - exfalso. destruct Hbad as [Hlen | [(b & [= <-] & Hb) | (p & [= <-] & Hp)]].
    + by apply Hlen.
    + by apply Hsome, ASSETS_none.
    + by apply Hp, endswith_true.
  - eexists. split_and!; [reflexivity | done |]. right. right.
    by exists setup_py_path.
Qed.

Lemma invalid_arguments_exit_first_witness :
  ∃ msg,
    main (sample_world ascending_order all_succeed)
      ["win_installer.py"; "16"; "setup.py"] init
    = (Raised (SystemExit msg), init)
    ∧ exit_status (Raised (SystemExit msg)) ≠ 0%Z
    ∧ (msg = "Supply bitness (32 or 64) and path to setup.py."
       ∨ (∃ b, ["win_installer.py"; "16"; "setup.py"] !! 1%nat = Some b
               ∧ msg = "Invalid bitness " +:+ b +:+ ": use 32 or 64.")
       ∨ (∃ p, ["win_installer.py"; "16"; "setup.py"] !! 2%nat = Some p
               ∧ msg = "Invalid path to setup.py: " +:+ p +:+ ".")).
Proof.
  apply (invalid_arguments_exit_first
           (sample_world ascending_order all_succeed)
           ["win_installer.py"; "16"; "setup.py"] init).
  right. left. exists "16". split_and!; [reflexivity | discriminate..].
Defined.

(** C9. Started through the command-line entry point, the lookup
    [ASSETS[bitness]] in [run] cannot fail: a bitness that is not a key
    of [ASSETS] ends the program in [sys.exit] before [run] is called,
    and no run of the program ends in the [KeyError] of that lookup. *)
Theorem assets_lookup_cannot_fail w argv st bitness :
  argv !! 1%nat = Some bitness →
  (ASSETS !! bitness = None →
   ∃ msg, main w argv st = (Raised (SystemExit msg), st))
  ∧ (main w argv st).1 ≠ Raised (KeyError bitness).
Proof.
  intros Hb.
  destruct argv as [|prog [|b [|setup_py_path [|extra argv]]]];
    try (split; [intros _; by eexists | done]).
  injection Hb as ->. unfold main.
  destruct (decide (ASSETS !! bitness = None)) as [Hnone|Hsome];
    [split; [intros _; by eexists | done] |].
  split; [done |].
  destruct (Py.endswith setup_py_path "setup.py"); [|done]. simpl.
  destruct (run w bitness _ st) as [out st'] eqn:Hrun. simpl. intros ->.
  apply run_inv in Hrun as [(_ & [=] & _) | (wd & o1 & s1 & _ & Hbody & _ & Ho1)].
  destruct (rmtree_ok w (trace s1) wd); [|discriminate].
  destruct o1 as [name|e]; [by destruct Ho1 |]. injection Ho1 as <-.
  pose proof (raises_run_body w bitness _ wd _ (KeyError bitness)
                (f_equal fst Hbody) bitness eq_refl) as [-> | [-> | [_ ?]]];
    [by apply Hsome | by apply Hsome | done].
Qed.

Lemma assets_lookup_cannot_fail_witness :
  (main (sample_world ascending_order all_succeed)
     ["win_installer.py"; "64"; "repo/setup.py"] init).1
  ≠ Raised (KeyError "64").
Proof.
  apply (assets_lookup_cannot_fail
           (sample_world ascending_order all_succeed)
           ["win_installer.py"; "64"; "repo/setup.py"] init "64").
  reflexivity.
Defined.






(** C1, as stated, fails: where installing the application and
    installing pynsist both exit with status 1, the run goes on through
    every later step and completes. *)
Lemma nonzero_exit_status_ignored :
  ¬ (∀ w bitness repo_root st pre cmd p post,
       trace (run w bitness repo_root st).2 = pre ++ EvSpawn cmd :: post →
       spawn w pre cmd = Some p →
       returncode p ≠ 0%Z →
       (∃ e, (run w bitness repo_root st).1 = Raised e)
       ∧ ∀ ev, ev ∈ post → tempdir_event ev = true).
Proof.
  intros Hclaim.
  destruct (Hclaim (sample_world ascending_order (fails_at "install"))
              "64" "repo" init
              [EvMkdtemp "tmp1.mu-pynsist";
               EvOpenRead (sample_join "repo" ["mu"; "__about__.py"]);
               EvSpawn ["python"; "-m"; "venv";
                        sample_join "tmp1.mu-pynsist" ["mu-packaging-venv"]]]
              [sample_join "tmp1.mu-pynsist"
                 ["mu-packaging-venv"; "Scripts"; "python.exe"];
               "-m"; "pip"; "install"; "repo"]
              (Completed 1 [])
              (drop 4 (trace (run (sample_world ascending_order
                                     (fails_at "install"))
                                "64" "repo" init).2)))
    as [[e He] _].
  - vm_compute. reflexivity.
  - vm_compute. reflexivity.
  - discriminate.
  - vm_compute in He. discriminate.
Qed.

(** C1, amended. Of the child processes only pip freeze, started with
    [check_output], ends the run when it exits with a non-zero status:
    nothing follows the failed call but the removal of the work
    directory, and [CalledProcessError] with that status leaves [run]
    (the error of the removal, should that fail too), whatever the exit
    statuses of the two children before it were.  The exit status of a
    child started with [subprocess.run] (creating the environment,
    installing the application, installing pynsist, running pynsist) is
    not looked at: whatever statuses these four children exit with, the
    run makes the same requests, prints the same text and ends the same
    way. *)
Theorem only_freeze_status_ends_run w bitness repo_root st :
  (∀ status,
     run (with_statuses w status) bitness repo_root st
     = run w bitness repo_root st)
  ∧ ∀ work_dir about title version p1 p2 p3,
      let tr := trace st ++ [EvMkdtemp work_dir] in
      let about_path := path_join w repo_root ["mu"; "__about__.py"] in
      mkdtemp w (trace st) ".mu-pynsist" = Some work_dir →
      read_about w tr about_path = Some about →
      about !! "__title__" = Some title →
      about !! "__version__" = Some version →
      spawn w (tr ++ [EvOpenRead about_path]) (venv_cmd w work_dir)
        = Some p1 →
      spawn w (tr ++ [EvOpenRead about_path; EvSpawn (venv_cmd w work_dir)])
        (install_cmd w repo_root work_dir) = Some p2 →
      spawn w (tr ++ [EvOpenRead about_path; EvSpawn (venv_cmd w work_dir);
                      EvSpawn (install_cmd w repo_root work_dir)])
        (freeze_cmd w work_dir) = Some p3 →
      returncode p3 ≠ 0%Z →
      trace (run w bitness repo_root st).2
      = tr ++ freeze_requests w repo_root work_dir ++ [EvRmtree work_dir]
      ∧ (run w bitness repo_root st).1
        = if rmtree_ok w (tr ++ freeze_requests w repo_root work_dir) work_dir
          then Raised (CalledProcessError (returncode p3)
                         (freeze_cmd w work_dir))
          else Raised (OSError work_dir).
Proof.
  split; [intros status; apply run_statuses |].
  intros work_dir about title version p1 p2 p3 tr about_path
    Hmk Habout Ht Hv H1 H2 H3 Hrc.
  destruct (run_body_freeze_failed w bitness repo_root work_dir
              (record (EvMkdtemp work_dir) st) about title version p1 p2 p3)
    as (st2 & Hbody & Htr); try done; unfold tr, about_path in *.
  { rewrite trace_record, <- !app_assoc. rewrite <- !app_assoc in H2.
    exact H2. }
  { rewrite trace_record, <- !app_assoc. rewrite <- !app_assoc in H3.
    exact H3. }
  destruct (run_trace w bitness repo_root st work_dir Hmk) as [-> ->].
  rewrite Hbody. simpl. rewrite Htr, trace_record, <- !app_assoc.
  split; reflexivity.
Qed.

Lemma only_freeze_status_ends_run_witness :
  (run (with_statuses (sample_world ascending_order all_succeed)
          (fun _ _ => 1%Z)) "64" "repo" init).1 = Done tt
  ∧ (run (sample_world ascending_order (fails_at "freeze"))
       "64" "repo" init).1
    = Raised (CalledProcessError 1
                [sample_join
                   (sample_join "tmp1.mu-pynsist" ["mu-packaging-venv"])
                   ["Scripts"; "python.exe"];
                 "-m"; "pip"; "freeze"; "--all"]).
Proof.
  split.
  - rewrite (proj1 (only_freeze_status_ends_run
                      (sample_world ascending_order all_succeed)
                      "64" "repo" init)).
    vm_compute. reflexivity.
  - apply (proj2 (only_freeze_status_ends_run
                    (sample_world ascending_order (fails_at "freeze"))
                    "64" "repo" init)
             "tmp1.mu-pynsist"
             (<["__title__" := "Foo"]> (<["__version__" := "1.2.3"]> ∅))
             "Foo" "1.2.3"
             (Completed 0 []) (Completed 0 [])
             (Completed 1 (list_byte_of_string sample_freeze)));
      try reflexivity.
    discriminate.
Defined.

(** C3, as stated, fails: two runs on the same inputs in environments
    that give the same answers to every request, and differ only in the
    order in which the interpreter enumerates a set, write different
    configuration files. *)
Lemma configuration_depends_on_set_order :
  ¬ (∀ w o1 o2 bitness repo_root st,
       written_texts (trace (run (with_order w o1) bitness repo_root st).2)
       = written_texts (trace (run (with_order w o2) bitness repo_root st).2)).
Proof.
  intros Hclaim.
  specialize (Hclaim (sample_world ascending_order all_succeed)
                ascending_order descending_order "64" "repo" init).
  vm_compute in Hclaim. discriminate.
Qed.

(** C3, amended. Two runs on the same inputs, in environments that
    answer every request the same way and differ at most in the order in
    which the interpreter enumerates a set, either both write no
    configuration file or both write one.  The two files hold the same
    text around the computed entries of the packages list, and those
    entries are the same up to their order, which is the order in which
    each run enumerates the set of requirements without a wheel.  The
    files are byte-identical when both runs enumerate that set in the
    same order, and always when it has at most one element. *)
Theorem configuration_same_up_to_package_order w o1 o2 bitness repo_root st :
  let texts o :=
    written_texts (trace (run (with_order w o) bitness repo_root st).2) in
  ((∀ work_dir title version lines wheels,
      ¬ reaches_configuration w repo_root st work_dir title version lines
          wheels)
   ∧ texts o1 = written_texts (trace st)
   ∧ texts o2 = written_texts (trace st))
  ∨ ∃ work_dir title version lines wheels,
      reaches_configuration w repo_root st work_dir title version lines wheels
      ∧ let requirements := requirements_of title lines in
        let pset : gset string :=
          list_to_set requirements ∖ list_to_set wheels in
        let text o :=
          cfg_before_packages version
            (path_join w repo_root ["package"; "icons"; "win_icon.ico"])
            (path_join w repo_root ["LICENSE"]) bitness (Py.join SEP wheels)
          +:+ Py.join SEP (packages_from o requirements wheels)
          +:+ cfg_after_packages (installer_name_of title version bitness) in
        texts o1 = written_texts (trace st) ++ [text o1]
        ∧ texts o2 = written_texts (trace st) ++ [text o2]
        ∧ packages_from o1 requirements wheels
          ≡ₚ packages_from o2 requirements wheels
        ∧ (iter o1 pset = iter o2 pset → text o1 = text o2)
        ∧ ((size pset ≤ 1)%nat → text o1 = text o2).
Proof.
  intros texts. unfold texts.
  destruct (run_texts (with_order w o1) bitness repo_root st)
    as [(wd & title & version & lines & wheels & Hreach & Htexts1)
       | [Hnot1 Htexts1]];
    destruct (run_texts (with_order w o2) bitness repo_root st)
      as [(wd2 & title2 & version2 & lines2 & wheels2 & Hreach2 & Htexts2)
         | [Hnot2 Htexts2]].
  - right. apply reaches_configuration_with_order in Hreach, Hreach2.
    destruct (reaches_configuration_functional _ _ _ _ _ _ _ _ _ _ _ _ _
                Hreach Hreach2) as (<- & <- & <- & <- & <-).
    exists wd, title, version, lines, wheels. split; [exact Hreach |].
    cbv zeta.
    assert (iter o1 (list_to_set (requirements_of title lines)
                     ∖ list_to_set wheels)
            = iter o2 (list_to_set (requirements_of title lines)
                       ∖ list_to_set wheels) →
            packages_from o1 (requirements_of title lines) wheels
            = packages_from o2 (requirements_of title lines) wheels)
      as Hsame.
    { intros Heq. unfold packages_from. by rewrite Heq. }
    split_and!.
    + exact Htexts1.
    + exact Htexts2.
    + apply packages_from_Permutation.
    + intros Heq. by rewrite (Hsame Heq).
    + intros Hsize. rewrite Hsame; [done | by apply iter_small].
  - exfalso. apply reaches_configuration_with_order in Hreach.
    apply (Hnot2 wd title version lines wheels).
    by apply reaches_configuration_with_order.
  - exfalso. apply reaches_configuration_with_order in Hreach2.
    apply (Hnot1 wd2 title2 version2 lines2 wheels2).
    by apply reaches_configuration_with_order.
  - left. split_and!; [| exact Htexts1 | exact Htexts2].
    intros wd title version lines wheels Hreach.
    apply (Hnot1 wd title version lines wheels).
    by apply reaches_configuration_with_order.
Qed.

(** * Further properties of the code *)

(** ** Strings *)

Lemma contains_char_app c a b :
  contains_char c (a +:+ b) = contains_char c a || contains_char c b.
Proof.
  induction a as [|x a IH]; simpl; [done |]. by rewrite IH, orb_assoc.
Qed.

Lemma split_last_go_spec c s :
  ∀ cur, contains_char c cur = false →
    contains_char c (Py.split_last_go c cur s) = false
    ∧ ∃ pre, cur +:+ s = pre +:+ Py.split_last_go c cur s
             ∧ (pre = EmptyString
                ∨ ∃ pre', pre = pre' +:+ String c EmptyString).
Proof.
  induction s as [|x s IH]; intros cur Hcur; simpl.
  - split; [done |]. exists EmptyString. rewrite append_nil_r. by split; [|left].
  - destruct (Ascii.eqb_spec x c) as [->|Hne].
    + destruct (IH EmptyString eq_refl) as (Hfree & pre & Heq & Hpre).
      split; [done |]. exists (cur +:+ String c pre). split.
      * rewrite append_assoc. simpl. simpl in Heq. by rewrite <- Heq.
      * right. destruct Hpre as [-> | [pre' ->]].
        -- by exists cur.
        -- exists (cur +:+ String c pre'). rewrite append_assoc. done.
    + destruct (IH (cur +:+ String x EmptyString)) as (Hfree & pre & Heq & Hpre).
      { rewrite contains_char_app, Hcur. simpl.
        destruct (Ascii.eqb_spec x c); [done | done]. }
      split; [done |]. exists pre. split; [|done].
      rewrite <- Heq, append_assoc. done.
Qed.

(** X1. [url.split('/')[-1]] is what follows the last separator: the
    result holds no separator, and the input is the result after a part
    that is empty or ends in the separator. *)
Theorem split_last_is_last_segment c s :
  contains_char c (Py.split_last c s) = false
  ∧ ∃ pre, s = pre +:+ Py.split_last c s
           ∧ (pre = EmptyString ∨ ∃ pre', pre = pre' +:+ String c EmptyString).
Proof. apply (split_last_go_spec c s EmptyString eq_refl). Qed.

(** X2. A pin [name==version] whose name holds no [=] is taken apart
    again by [partition('==')] into that name and that version. *)
Theorem partition_inverts_pin name version :
  contains_char "=" name = false →
  Py.partition "==" (name +:+ "==" +:+ version) = (name, "==", version)
  ∧ name_of (name +:+ "==" +:+ version) = name
  ∧ version_of (name +:+ "==" +:+ version) = version.
Proof.
  intros Hname. pose proof (partition_pin name version Hname) as H.
  unfold name_of, version_of. by rewrite H.
Qed.

Lemma partition_inverts_pin_witness :
  Py.partition "==" ("pip" +:+ "==" +:+ "9.0.1") = ("pip", "==", "9.0.1")
  ∧ name_of ("pip" +:+ "==" +:+ "9.0.1") = "pip"
  ∧ version_of ("pip" +:+ "==" +:+ "9.0.1") = "9.0.1".
Proof. apply (partition_inverts_pin "pip" "9.0.1"). reflexivity. Defined.

Lemma splitlines_go_spec s :
  ∀ after_cr cur, break_free cur = true →
    Forall (fun l => break_free l = true) (Py.splitlines_go after_cr cur s)
    ∧ String.concat EmptyString (Py.splitlines_go after_cr cur s)
      = cur +:+ strip_breaks s.
Proof.
  induction s as [|x s IH]; intros after_cr cur Hcur; simpl.
  - rewrite append_nil_r. destruct (String.eqb_spec cur EmptyString) as [->|Hne].
    + by split.
    + split; [by constructor | done].
  - destruct (after_cr && Ascii.eqb x Py.LF) eqn:Hskip.
    + apply andb_true_iff in Hskip as [_ Hx]. apply Ascii.eqb_eq in Hx as ->.
      apply (IH false cur Hcur).
    + destruct (Py.is_linebreak x) eqn:Hx.
      * destruct (IH (Ascii.eqb x Py.CR) EmptyString eq_refl) as [Hall Hcat].
        split; [by constructor |].
        simpl in Hcat. destruct (Py.splitlines_go _ EmptyString s) eqn:Hgo.
        -- simpl. rewrite <- Hcat. by rewrite append_nil_r.
        -- simpl. simpl in Hcat. by rewrite Hcat.
      * destruct (IH false (cur +:+ String x EmptyString)) as [Hall Hcat].
        { clear IH. induction cur as [|y cur IHc]; simpl; [by rewrite Hx |].
          simpl in Hcur. apply andb_true_iff in Hcur as [Hy Hcur].
          by rewrite Hy, IHc. }
        split; [done |]. rewrite Hcat, append_assoc. done.
Qed.

(** X3. [splitlines] loses nothing but the line boundaries: no returned
    line holds a boundary character, and the lines put together are the
    text with its boundary characters taken out. *)
Theorem splitlines_keeps_text s :
  Forall (fun l => break_free l = true) (Py.splitlines s)
  ∧ String.concat EmptyString (Py.splitlines s) = strip_breaks s.
Proof. apply (splitlines_go_spec s false EmptyString eq_refl). Qed.

(** ** Template filling, for any keyword arguments *)

Lemma format_template_any kw :
  Py.format PYNSIST_CFG_TEMPLATE kw =
  match kw !! "version" with
  | None => Raised (KeyError "version")
  | Some version =>
  match kw !! "icon_file" with
  | None => Raised (KeyError "icon_file")
  | Some icon_file =>
  match kw !! "license_file" with
  | None => Raised (KeyError "license_file")
  | Some license_file =>
  match kw !! "bitness" with
  | None => Raised (KeyError "bitness")
  | Some bitness =>
  match kw !! "pypi_wheels" with
  | None => Raised (KeyError "pypi_wheels")
  | Some pypi_wheels =>
  match kw !! "packages" with
  | None => Raised (KeyError "packages")
  | Some packages =>
  match kw !! "installer_name" with
  | None => Raised (KeyError "installer_name")
  | Some installer_name =>
      Done (cfg_before_packages version icon_file license_file bitness
              pypi_wheels
            +:+ packages +:+ cfg_after_packages installer_name)
  end end end end end end end.
Proof.
  unfold Py.format, PYNSIST_CFG_TEMPLATE.
  cbv [Py.format_go Ascii.eqb Bool.eqb String.append].
  destruct (kw !! "version") as [version|]; [|reflexivity].
  destruct (kw !! "icon_file") as [icon_file|]; [|reflexivity].
  destruct (kw !! "license_file") as [license_file|]; [|reflexivity].
  destruct (kw !! "bitness") as [bitness|]; [|reflexivity].
  destruct (kw !! "pypi_wheels") as [pypi_wheels|]; [|reflexivity].
  destruct (kw !! "packages") as [packages|]; [|reflexivity].
  destruct (kw !! "installer_name") as [installer_name|]; [|reflexivity].
  unfold cfg_before_packages, cfg_after_packages.
  rewrite !append_assoc. reflexivity.
Qed.

Lemma format_go_literal kw lit s :
  contains_char "{" lit = false →
  contains_char "}" lit = false →
  Py.format_go kw None (lit +:+ s)
  = match Py.format_go kw None s with
    | Done r => Done (lit +:+ r)
    | Raised e => Raised e
    end.
Proof.
  induction lit as [|x lit IH]; intros Hopen Hclose.
  - simpl. by destruct (Py.format_go kw None s).
  - simpl in Hopen, Hclose.
    apply orb_false_iff in Hopen as [Hx1 Hopen].
    apply orb_false_iff in Hclose as [Hx2 Hclose].
    change (String x lit +:+ s) with (String x (lit +:+ s)).
    cbn [Py.format_go]. rewrite Hx1, Hx2, (IH Hopen Hclose).
    by destruct (Py.format_go kw None s).
Qed.

Lemma format_go_field kw name s :
  contains_char "{" name = false →
  contains_char "}" name = false →
  ∀ acc,
    Py.format_go kw (Some acc) (name +:+ String "}" s)
    = if Py.is_positional (acc +:+ name)
      then Raised (IndexError "tuple index out of range")
      else match kw !! (acc +:+ name) with
           | None => Raised (KeyError (acc +:+ name))
           | Some v =>
               match Py.format_go kw None s with
               | Done r => Done (v +:+ r)
               | Raised e => Raised e
               end
           end.
Proof.
  induction name as [|x name IH]; intros Hopen Hclose acc.
  - rewrite append_nil_r. reflexivity.
  - simpl in Hopen, Hclose.
    apply orb_false_iff in Hopen as [Hx1 Hopen].
    apply orb_false_iff in Hclose as [Hx2 Hclose].
    change (String x name +:+ String "}" s)
      with (String x (name +:+ String "}" s)).
    cbn [Py.format_go].
    rewrite Hx1, Hx2, (IH Hopen Hclose), append_assoc. reflexivity.
Qed.

Lemma name_start_facts c :
  is_name_start c = true →
  is_name_char c = true ∧ Py.is_digit c = false.
Proof.
  destruct c as [[] [] [] [] [] [] [] []]; vm_compute; intros H;
    try discriminate H; by split.
Qed.

Lemma name_char_facts c :
  is_name_char c = true →
  Ascii.eqb c "{" = false ∧ Ascii.eqb c "}" = false.
Proof.
  destruct c as [[] [] [] [] [] [] [] []]; vm_compute; intros H;
    try discriminate H; by split.
Qed.

Lemma name_chars_no_brace s :
  forallb is_name_char (list_ascii_of_string s) = true →
  contains_char "{" s = false ∧ contains_char "}" s = false.
Proof.
  induction s as [|c s IH]; [done |]. simpl.
  intros [Hc Hs]%andb_true_iff.
  destruct (name_char_facts c Hc) as [-> ->]. by apply IH.
Qed.

Lemma plain_name_facts name :
  plain_name name = true →
  contains_char "{" name = false
  ∧ contains_char "}" name = false
  ∧ Py.is_positional name = false
  ∧ ∃ c name', name = String c name' ∧ Ascii.eqb c "{" = false.
Proof.
  destruct name as [|c name]; [done |]. simpl.
  intros [Hc Hs]%andb_true_iff.
  destruct (name_start_facts c Hc) as [Hchar Hdigit].
  destruct (name_char_facts c Hchar) as [Hopen Hclose].
  destruct (name_chars_no_brace name Hs) as [Hno1 Hno2].
  split_and!.
  - by rewrite Hopen.
  - by rewrite Hclose.
  - unfold Py.is_positional. simpl. by rewrite Hdigit.
  - by exists c, name.
Qed.

(** X4. A template without braces is returned as it is, whatever the
    keyword arguments. *)
Theorem format_without_fields_is_identity kw s :
  contains_char "{" s = false →
  contains_char "}" s = false →
  Py.format s kw = Done s.
Proof.
  intros Hopen Hclose. unfold Py.format.
  rewrite <- (append_nil_r s) at 1.
  rewrite (format_go_literal kw s EmptyString Hopen Hclose). simpl.
  by rewrite append_nil_r.
Qed.

Lemma format_without_fields_is_identity_witness :
  Py.format "files=lib" (cfg_kw "1" "i" "l" "64" "w" "p" "n") = Done "files=lib".
Proof.
  apply (format_without_fields_is_identity _ "files=lib"); reflexivity.
Defined.

(** X5. A replacement field that is a plain name (a letter or an
    underscore, then letters, digits and underscores) and is not among
    the keyword arguments makes [format] raise [KeyError] with that name,
    whatever follows the field in the template. *)
Theorem format_missing_field_raises kw lit name rest :
  contains_char "{" lit = false →
  contains_char "}" lit = false →
  plain_name name = true →
  kw !! name = None →
  Py.format (lit +:+ String "{" (name +:+ String "}" rest)) kw
  = Raised (KeyError name).
Proof.
  intros Hopen Hclose Hname Hmissing. unfold Py.format.
  rewrite (format_go_literal kw lit _ Hopen Hclose).
  destruct (plain_name_facts name Hname)
    as (Hbrace1 & Hbrace & Hpos & c & name' & Heq & Hc).
  assert (Py.format_go kw None (String "{" (name +:+ String "}" rest))
          = Py.format_go kw (Some EmptyString) (name +:+ String "}" rest))
    as ->.
  { rewrite Heq.
    change (String c name' +:+ String "}" rest)
      with (String c (name' +:+ String "}" rest)).
    cbn [Py.format_go]. change (Ascii.eqb "{" "{") with true. cbn iota.
    by rewrite Hc. }
  rewrite (format_go_field kw name rest Hbrace1 Hbrace EmptyString).
  change (EmptyString +:+ name) with name. by rewrite Hpos, Hmissing.
Qed.

Lemma format_missing_field_raises_witness :
  Py.format ("bitness=" +:+ String "{" ("bitness" +:+ String "}" "; x={y}"))
    (<["version" := "1.2.3"]> ∅)
  = Raised (KeyError "bitness").
Proof.
  apply (format_missing_field_raises _ "bitness=" "bitness" "; x={y}");
    reflexivity.
Defined.

(** X6. [create_pynsist_cfg_file] needs every field of the template:
    when one of the seven keyword arguments is missing it raises
    [KeyError] for a missing one, and has by then neither written the
    file nor printed anything. *)
Theorem cfg_file_needs_every_field w target_directory encoding kw st :
  (∃ k, k ∈ CFG_FIELDS ∧ kw !! k = None) →
  ∃ k, k ∈ CFG_FIELDS ∧ kw !! k = None
       ∧ create_pynsist_cfg_file w target_directory encoding kw st
         = (Raised (KeyError k), st).
Proof.
  intros Hmissing. unfold create_pynsist_cfg_file.
  rewrite format_template_any. unfold CFG_FIELDS.
  destruct (kw !! "version") eqn:H1;
    [|exists "version"; set_solver].
  destruct (kw !! "icon_file") eqn:H2;
    [|exists "icon_file"; set_solver].
  destruct (kw !! "license_file") eqn:H3;
    [|exists "license_file"; set_solver].
  destruct (kw !! "bitness") eqn:H4;
    [|exists "bitness"; set_solver].
  destruct (kw !! "pypi_wheels") eqn:H5;
    [|exists "pypi_wheels"; set_solver].
  destruct (kw !! "packages") eqn:H6;
    [|exists "packages"; set_solver].
  destruct (kw !! "installer_name") eqn:H7;
    [|exists "installer_name"; set_solver].
  exfalso. destruct Hmissing as (k & Hk & Hnone). unfold CFG_FIELDS in Hk.
  repeat (apply elem_of_cons in Hk as [-> | Hk]; [congruence |]).
  by apply elem_of_nil in Hk.
Qed.

Lemma cfg_file_needs_every_field_witness :
  ∃ k, k ∈ CFG_FIELDS ∧ (<["version" := "1.2.3"]> ∅ : gmap string string) !! k = None
       ∧ create_pynsist_cfg_file (sample_world ascending_order all_succeed)
           "tmp1" "latin1" (<["version" := "1.2.3"]> ∅) init
         = (Raised (KeyError k), init).
Proof.
  apply (cfg_file_needs_every_field
           (sample_world ascending_order all_succeed) "tmp1" "latin1"
           (<["version" := "1.2.3"]> ∅) init).
  exists "bitness". split; [|reflexivity].
  unfold CFG_FIELDS. do 3 apply list_elem_of_further. apply list_elem_of_here.
Defined.

(** X7. Only the seven fields of the template are read from the keyword
    arguments: two sets of arguments that agree on them give the same
    configuration text, or the same error. *)
Theorem template_reads_only_its_fields kw kw' :
  (∀ k, k ∈ CFG_FIELDS → kw !! k = kw' !! k) →
  Py.format PYNSIST_CFG_TEMPLATE kw = Py.format PYNSIST_CFG_TEMPLATE kw'.
Proof.
  intros Hagree. rewrite !format_template_any.
  rewrite <- !Hagree by (unfold CFG_FIELDS; set_solver). reflexivity.
Qed.

Lemma template_reads_only_its_fields_witness :
  Py.format PYNSIST_CFG_TEMPLATE (cfg_kw "1" "i" "l" "64" "w" "p" "n")
  = Py.format PYNSIST_CFG_TEMPLATE
      (<["unused" := "x"]> (cfg_kw "1" "i" "l" "64" "w" "p" "n")).
Proof.
  apply (template_reads_only_its_fields
           (cfg_kw "1" "i" "l" "64" "w" "p" "n")
           (<["unused" := "x"]> (cfg_kw "1" "i" "l" "64" "w" "p" "n"))).
  intros k Hk. unfold CFG_FIELDS in Hk.
  repeat (apply elem_of_cons in Hk as [-> | Hk]; [reflexivity |]).
  by apply elem_of_nil in Hk.
Defined.

(** ** The wheel check, request by request *)


Lemma wheels_in_loop_filter w index requirements :
  (∀ tr name, yarg_get w tr name = index name) →
  ∀ wheels st result st',
    wheels_in_loop w requirements wheels st = (Done result, st') →
    result
    = wheels ++ filter (fun r => wheel_available index r = true) requirements.
Proof.
  intros Hindex.
  induction requirements as [|requirement rest IH]; intros wheels st result st'.
  - intros [= <- <-]. by rewrite app_nil_r.
  - rewrite wheels_in_loop_cons. intros H.
    apply bind_done_inv in H as (u & s1 & _ & H).
    apply bind_done_inv in H as (package & s2 & Hask & H).
    apply ask_inv in Hask as [-> [(p & Hp & [= <-]) | [_ ?]]]; [|done].
    rewrite Hindex in Hp.
    assert (wheel_available index requirement
            = match package_release package (version_of requirement) with
              | Some releases => any_wheel releases
              | None => false
              end) as Hwa.
    { unfold wheel_available. by rewrite Hp. }
    destruct (package_release package (version_of requirement))
      as [releases|]; [|done].
    rewrite filter_cons.
    destruct (any_wheel releases);
      apply bind_done_inv in H as (u3 & s3 & _ & H); apply IH in H as ->.
    + rewrite decide_True by done. by rewrite <- app_assoc.
    + rewrite decide_False; [done |]. by rewrite Hwa.
Qed.

(** X9. When the index answers the same way whenever it is asked, the
    wheel list is the requirement list filtered: a requirement is kept
    exactly when one of the releases of its exact version is a wheel. *)
Theorem wheels_in_is_filter w index requirements st wheels st' :
  (∀ tr name, yarg_get w tr name = index name) →
  wheels_in w requirements st = (Done wheels, st') →
  wheels = filter (fun r => wheel_available index r = true) requirements.
Proof.
  intros Hindex H. unfold wheels_in in H.
  apply bind_done_inv in H as (u & s1 & _ & H).
  by apply (wheels_in_loop_filter w index _ Hindex) in H.
Qed.

Lemma wheels_in_is_filter_witness :
  ["pip==9.0.1"]
  = filter (fun r =>
              wheel_available
                (yarg_get (sample_world ascending_order all_succeed) []) r
              = true)
      ["pip==9.0.1"; "alpha==1.0"; "beta==2.0"].
Proof.
  apply (wheels_in_is_filter (sample_world ascending_order all_succeed)
           (yarg_get (sample_world ascending_order all_succeed) [])
           ["pip==9.0.1"; "alpha==1.0"; "beta==2.0"] init ["pip==9.0.1"]
           (wheels_in (sample_world ascending_order all_succeed)
              ["pip==9.0.1"; "alpha==1.0"; "beta==2.0"] init).2).
  - reflexivity.
  - vm_compute. reflexivity.
Defined.

(** ** The extra packages, edge cases *)

(** X10. There are no extra packages exactly when every requirement is
    among the wheels; in particular for an empty requirement list. *)
Theorem packages_from_empty_iff o requirements wheels :
  packages_from o requirements wheels = []
  ↔ ∀ r, r ∈ requirements → r ∈ wheels.
Proof.
  split.
  - intros Hnil r Hr. destruct (decide (r ∈ wheels)) as [|Hout]; [done |].
    assert (name_of r ∈ packages_from o requirements wheels) as Hin.
    { apply elem_of_packages_from. by exists r. }
    rewrite Hnil in Hin. by apply elem_of_nil in Hin.
  - intros Hall. destruct (packages_from o requirements wheels) as [|p l] eqn:Hp;
      [done |].
    assert (p ∈ packages_from o requirements wheels) as Hin.
    { rewrite Hp. apply list_elem_of_here. }
    apply elem_of_packages_from in Hin as (r & Hr & Hout & _).
    destruct Hout. by apply Hall.
Qed.

(** X11. When no two requirements name the same package, no package
    name occurs twice among the extra packages, however often a
    requirement line is repeated in the input. *)
Theorem packages_from_NoDup o requirements wheels :
  (∀ r1 r2, r1 ∈ requirements → r2 ∈ requirements →
            name_of r1 = name_of r2 → r1 = r2) →
  NoDup (packages_from o requirements wheels).
Proof.
  intros Hinj. unfold packages_from. apply NoDup_fmap_2_strong.
  - intros r1 r2 H1 H2. rewrite (iter_perm o) in H1, H2.
    apply elem_of_elements, elem_of_difference in H1 as [H1 _].
    apply elem_of_elements, elem_of_difference in H2 as [H2 _].
    rewrite elem_of_list_to_set in H1, H2. by apply Hinj.
  - rewrite (iter_perm o). apply NoDup_elements.
Qed.

Lemma packages_from_NoDup_witness :
  NoDup (packages_from descending_order
           ["alpha==1.0"; "beta==2.0"; "alpha==1.0"] []).
Proof.
  apply (packages_from_NoDup descending_order
           ["alpha==1.0"; "beta==2.0"; "alpha==1.0"] []).
  intros r1 r2 H1 H2.
  repeat (apply elem_of_cons in H1 as [-> | H1]);
    try (by apply elem_of_nil in H1);
    repeat (apply elem_of_cons in H2 as [-> | H2]);
    try (by apply elem_of_nil in H2);
    try reflexivity; vm_compute; discriminate.
Defined.

(** ** The asset download *)

Lemma concat_filter_nonempty {A} (chunks : list (list A)) :
  concat (filter (fun chunk => chunk ≠ []) chunks) = concat chunks.
Proof.
  induction chunks as [|chunk chunks IH]; [done |].
  rewrite filter_cons. destruct (decide (chunk ≠ [])) as [|Hempty]; simpl.
  - by rewrite IH.
  - destruct chunk; [done |]. by destruct Hempty.
Qed.



(** X13. A download that fails has written nothing when the request
    itself failed.  Otherwise the one file it writes was opened and the
    chunks that arrived went into it: the download failed either in
    writing that file ([OSError] for the file), or, the part received
    being written, because the transfer broke off before the end of the
    body (the request error for the URL).  No other exception leaves
    [download_file]. *)
Theorem download_file_failures w url target_directory st e :
  (download_file w url target_directory st).1 = Raised e →
  let filename := path_join w target_directory [Py.split_last "/" url] in
  (e = HTTPError url
   ∧ http_get w (trace st) url = None
   ∧ trace (download_file w url target_directory st).2
     = trace st ++ [EvHttpGet url])
  ∨ ∃ r,
      http_get w (trace st) url = Some r
      ∧ trace (download_file w url target_directory st).2
        = trace st
          ++ [EvHttpGet url; EvWriteBytes filename (concat (chunks r))]
      ∧ ((e = OSError filename
          ∧ write_ok w (trace st ++ [EvHttpGet url]) filename = false)
         ∨ (e = HTTPError url
            ∧ write_ok w (trace st ++ [EvHttpGet url]) filename = true
            ∧ complete r = false)).
Proof.
  destruct (download_file w url target_directory st) as [out st'] eqn:H.
  simpl. intros ->. unfold download_file in H.
  apply bind_inv in H as [(r & s1 & Hget & H1) | (e' & Hget & [= ->])].
  - apply ask_inv in Hget as [-> [(r' & Hr & [= <-]) | [_ [=]]]].
    right. exists r. split; [exact Hr |].
    apply bind_inv in H1 as [(u2 & s2 & Hwb & H2) | (e' & Hwb & [= ->])].
    + apply ask_inv in Hwb as [-> [(u & Hok & _) | [_ [=]]]].
      apply guard_ok_some in Hok.
      destruct (complete r) eqn:Hc; [discriminate |].
      injection H2 as <- <-. split.
      * rewrite !trace_record, <- app_assoc, concat_filter_nonempty. done.
      * right. by rewrite trace_record in Hok.
    + apply ask_inv in Hwb as [-> [(u & _ & [=]) | [Hfail [= ->]]]]. split.
      * rewrite !trace_record, <- app_assoc, concat_filter_nonempty. done.
      * left. split; [done |]. rewrite trace_record in Hfail.
        by destruct (write_ok w _ _).
  - apply ask_inv in Hget as [-> [(a & _ & [=]) | [Hnone [= ->]]]].
    left. by rewrite trace_record.
Qed.

Lemma download_file_failures_witness :
  let w := broken_world false true in
  let filename := path_join w "tmp1" [Py.split_last "/" "u"] in
  (HTTPError "u" = HTTPError "u"
   ∧ http_get w (trace init) "u" = None
   ∧ trace (download_file w "u" "tmp1" init).2 = trace init ++ [EvHttpGet "u"])
  ∨ ∃ r,
      http_get w (trace init) "u" = Some r
      ∧ trace (download_file w "u" "tmp1" init).2
        = trace init
          ++ [EvHttpGet "u"; EvWriteBytes filename (concat (chunks r))]
      ∧ ((HTTPError "u" = OSError filename
          ∧ write_ok w (trace init ++ [EvHttpGet "u"]) filename = false)
         ∨ (HTTPError "u" = HTTPError "u"
            ∧ write_ok w (trace init ++ [EvHttpGet "u"]) filename = true
            ∧ complete r = false)).
Proof.
  intros w.
  apply (download_file_failures w "u" "tmp1" init (HTTPError "u")).
  reflexivity.
Defined.

(** ** The pipeline, further *)



Lemma emits_run_body_confined w bitness repo_root work_dir :
  emits (confined w work_dir) (run_body w bitness repo_root work_dir).
Proof.
  unfold run_body, about_dict, create_packaging_venv,
    install_mu, pip_freeze, subprocess_check_output, subprocess_run,
    bytes_decode, create_pynsist_cfg_file, download_file, unzip_file.
  repeat first
    [ apply emits_wheels_in; done
    | emits_step
    | apply emits_ask; simpl; eauto
    | rewrite format_cfg
    | case_match ].
Qed.

(** X15. Everything [run] writes, it writes inside its work directory:
    each file written is directly under that directory, the archive is
    unpacked into it, and the one thing that leaves it is the installer
    copied from the builder's output directory to [.]. *)
Theorem run_writes_only_in_work_dir w bitness repo_root st :
  trace (run w bitness repo_root st).2 = trace st
  ∨ ∃ work_dir mid,
      mkdtemp w (trace st) ".mu-pynsist" = Some work_dir
      ∧ trace (run w bitness repo_root st).2
        = trace st ++ EvMkdtemp work_dir :: mid ++ [EvRmtree work_dir]
      ∧ Forall (confined w work_dir) mid.
Proof.
  destruct (run w bitness repo_root st) as [out st'] eqn:Hrun. simpl.
  apply run_inv in Hrun
    as [(_ & _ & ->) | (wd & o1 & s1 & Hsome & Hbody & Htr & _)];
    [by left | right].
  destruct (emits_run_body_confined w bitness repo_root wd
              (record (EvMkdtemp wd) st)) as (mid & Hmid & Hconfined).
  rewrite Hbody in Hmid. simpl in Hmid.
  exists wd, mid. split; [done |]. split; [|done].
  rewrite Htr, Hmid, <- !app_assoc. done.
Qed.

(** X16. With a bitness of [32] or [64] and a path that ends in
    [setup.py], the entry point does what [run] does for that bitness and
    the absolute path of the directory of the descriptor. *)
Theorem main_runs_on_valid_arguments w prog bitness setup_py_path :
  bitness = "32" ∨ bitness = "64" →
  (∃ pre, setup_py_path = pre +:+ "setup.py") →
  main w [prog; bitness; setup_py_path]
  = run w bitness (abspath w (dirname w setup_py_path)).
Proof.
  intros Hb Hp. apply main_valid.
  - rewrite ASSETS_none. naive_solver.
  - by apply endswith_true.
Qed.

Lemma main_runs_on_valid_arguments_witness :
  main offline_world ["win_installer.py"; "32"; "mu/setup.py"]
  = run offline_world "32"
      (abspath offline_world (dirname offline_world "mu/setup.py")).
Proof.
  apply (main_runs_on_valid_arguments offline_world "win_installer.py" "32"
           "mu/setup.py").
  - by left.
  - by exists "mu/".
Defined.

Lemma create_packaging_venv_inv w target_directory name st python st' :
  create_packaging_venv w target_directory name st = (Done python, st') →
  python
  = path_join w (path_join w target_directory [name]) ["Scripts"; "python.exe"].
Proof.
  unfold create_packaging_venv. intros H.
  apply bind_done_inv in H as (u1 & s1 & _ & H).
  apply bind_done_inv in H as (p2 & s2 & _ & H).
  by injection H as <- _.
Qed.

Lemma run_body_final_steps w bitness repo_root work_dir st name st' :
  run_body w bitness repo_root work_dir st = (Done name, st') →
  ∃ url payload data pre,
    ASSETS !! bitness = Some url
    ∧ trace st'
      = pre
        ++ [EvWrite (path_join w work_dir ["pynsist.cfg"]) "latin1" payload;
            EvHttpGet url;
            EvWriteBytes
              (path_join w work_dir [Py.split_last "/" url]) data;
            EvUnzip (path_join w work_dir [Py.split_last "/" url]) work_dir;
            EvSpawn
              [path_join w (path_join w work_dir ["mu-packaging-venv"])
                 ["Scripts"; "python.exe"];
               "-m"; "pip"; "install"; "pynsist"];
            EvSpawn
              [path_join w (path_join w work_dir ["mu-packaging-venv"])
                 ["Scripts"; "python.exe"];
               "-m"; "nsist"; path_join w work_dir ["pynsist.cfg"]];
            EvCopy (path_join w work_dir ["build"; "nsis"; name]) "."].
Proof.
  unfold run_body. intros H.
  apply bind_done_inv in H as (u0 & s0 & _ & H).
  apply bind_done_inv in H as (about & s1 & _ & H).
  apply bind_done_inv in H as (title & s2 & _ & H).
  apply bind_done_inv in H as (version & s3 & _ & H).
  apply bind_done_inv in H as (venv_python & s4 & Hvenv & H).
  apply create_packaging_venv_inv in Hvenv as ->.
  apply bind_done_inv in H as (u5 & s5 & _ & H).
  apply bind_done_inv in H as (lines & s6 & _ & H).
  apply bind_done_inv in H as (wheels & s7 & _ & H).
  apply bind_done_inv in H as (cfg & s8 & Hcfg & H).
  apply create_pynsist_cfg_file_inv in Hcfg as [-> Hs8].
  apply bind_done_inv in H as (u9 & s9 & Hp9 & H). apply print_inv in Hp9.
  apply bind_done_inv in H as (url & s10 & Hurl & H).
  apply getitem_inv in Hurl as [Hurl ->].
  apply bind_done_inv in H as (filename & s11 & Hdl & H).
  apply download_file_inv in Hdl as (r & _ & _ & -> & Hs11).
  apply bind_done_inv in H as (u12 & s12 & Hp12 & H). apply print_inv in Hp12.
  apply bind_done_inv in H as (u13 & s13 & Hunzip & H).
  unfold unzip_file in Hunzip. apply ask_inv in Hunzip as [-> _].
  apply bind_done_inv in H as (u14 & s14 & Hp14 & H). apply print_inv in Hp14.
  apply bind_done_inv in H as (p15 & s15 & Hs15 & H).
  apply subprocess_run_inv in Hs15 as [_ ->].
  apply bind_done_inv in H as (u16 & s16 & Hp16 & H). apply print_inv in Hp16.
  apply bind_done_inv in H as (p17 & s17 & Hs17 & H).
  apply subprocess_run_inv in Hs17 as [_ ->].
  apply bind_done_inv in H as (u18 & s18 & Hp18 & H). apply print_inv in Hp18.
  apply bind_done_inv in H as (u19 & s19 & Hcopy & H).
  apply ask_inv in Hcopy as [-> _]. injection H as <- <-.
  exists url.
  exists (cfg_before_packages version
            (path_join w repo_root ["package"; "icons"; "win_icon.ico"])
            (path_join w repo_root ["LICENSE"]) bitness (Py.join SEP wheels)
          +:+ Py.join SEP
                (packages_from (set_iteration w) (requirements_of title lines)
                   wheels)
          +:+ cfg_after_packages (installer_name_of title version bitness)).
  exists (concat (filter (fun chunk => chunk ≠ []) (chunks r))), (trace s7).
  split; [exact Hurl |].
  rewrite trace_record, Hp18, trace_record, Hp16, trace_record, Hp14,
    trace_record, Hp12, Hs11, Hp9, Hs8.
  rewrite <- !app_assoc. reflexivity.
Qed.

(** X17. A run that completes ends with these requests, in this order
    and with nothing in between: the configuration file is written into
    the work directory, the archive for the bitness is fetched and saved
    in the work directory under the last segment of its URL, that file is
    unpacked into the work directory, the builder is installed with the
    interpreter of the packaging environment, the builder is run on the
    configuration file just written, the installer is copied, and the
    work directory is removed. *)
Theorem completed_run_final_steps w bitness repo_root st st' :
  run w bitness repo_root st = (Done tt, st') →
  ∃ work_dir url name payload data pre,
    mkdtemp w (trace st) ".mu-pynsist" = Some work_dir
    ∧ ASSETS !! bitness = Some url
    ∧ let python :=
        path_join w (path_join w work_dir ["mu-packaging-venv"])
          ["Scripts"; "python.exe"] in
      let cfg := path_join w work_dir ["pynsist.cfg"] in
      let archive := path_join w work_dir [Py.split_last "/" url] in
      trace st'
      = pre
        ++ [EvWrite cfg "latin1" payload;
            EvHttpGet url;
            EvWriteBytes archive data;
            EvUnzip archive work_dir;
            EvSpawn [python; "-m"; "pip"; "install"; "pynsist"];
            EvSpawn [python; "-m"; "nsist"; cfg];
            EvCopy (path_join w work_dir ["build"; "nsis"; name]) ".";
            EvRmtree work_dir].
Proof.
  intros Hrun.
  apply run_done_inv in Hrun as (wd & name & s1 & Hsome & Hbody & _ & Htr & _).
  apply run_body_final_steps in Hbody
    as (url & payload & data & pre & Hurl & Hs1).
  exists wd, url, name, payload, data, pre.
  split; [exact Hsome |]. split; [exact Hurl |].
  cbv zeta. rewrite Htr, Hs1, <- app_assoc. reflexivity.
Qed.

Lemma completed_run_final_steps_witness :
  ∃ name payload data pre,
    trace (run (sample_world ascending_order all_succeed) "64" "repo" init).2
    = pre
      ++ [EvWrite (sample_join "tmp1.mu-pynsist" ["pynsist.cfg"]) "latin1"
            payload;
          EvHttpGet (URL +:+ "0.3/pynsist_tkinter_3.6_64bit.zip");
          EvWriteBytes
            (sample_join "tmp1.mu-pynsist"
               [Py.split_last "/" (URL +:+ "0.3/pynsist_tkinter_3.6_64bit.zip")])
            data;
          EvUnzip
            (sample_join "tmp1.mu-pynsist"
               [Py.split_last "/" (URL +:+ "0.3/pynsist_tkinter_3.6_64bit.zip")])
            "tmp1.mu-pynsist";
          EvSpawn
            [sample_join (sample_join "tmp1.mu-pynsist" ["mu-packaging-venv"])
               ["Scripts"; "python.exe"];
             "-m"; "pip"; "install"; "pynsist"];
          EvSpawn
            [sample_join (sample_join "tmp1.mu-pynsist" ["mu-packaging-venv"])
               ["Scripts"; "python.exe"];
             "-m"; "nsist"; sample_join "tmp1.mu-pynsist" ["pynsist.cfg"]];
          EvCopy (sample_join "tmp1.mu-pynsist" ["build"; "nsis"; name]) ".";
          EvRmtree "tmp1.mu-pynsist"].
Proof.
  destruct (completed_run_final_steps
              (sample_world ascending_order all_succeed) "64" "repo" init
              (run (sample_world ascending_order all_succeed) "64" "repo" init).2)
    as (wd & url & name & payload & data & pre & Hwd & Hurl & Htr);
    [vm_compute; reflexivity |].
  injection Hwd as <-. injection Hurl as <-.
  exists name, payload, data, pre. exact Htr.
Defined.

Section CopiesOrFails.
Context {A B : Type}.

Lemma copies_or_fails_bind (m : M A) (k : A → M B) :
  emits not_a_copy m → (∀ a, copies_or_fails (k a)) →
  copies_or_fails (bind m k).
Proof.
  intros Hm Hk st. unfold bind.
  destruct (Hm st) as (evs1 & E1 & F1).
  destruct (m st) as [[a|e] st1]; simpl in *.
  - destruct (Hk a st1) as (evs2 & E2 & F2).
    exists (evs1 ++ evs2). rewrite E2, E1, app_assoc. split; [done |].
    intros src dst [Hin | Hin]%elem_of_app; [| by eapply F2].
    rewrite Forall_forall in F1. by destruct (F1 _ Hin).
  - exists evs1. split; [done |]. intros src dst Hin.
    rewrite Forall_forall in F1. by destruct (F1 _ Hin).
Qed.

End CopiesOrFails.

Lemma copies_or_fails_run_body w bitness repo_root work_dir :
  copies_or_fails (run_body w bitness repo_root work_dir).
Proof.
  unfold run_body.
  repeat
    (apply copies_or_fails_bind;
     [ solve
         [ unfold not_a_copy, about_dict, create_packaging_venv, install_mu,
             pip_freeze, subprocess_check_output, subprocess_run,
             bytes_decode, create_pynsist_cfg_file, download_file, unzip_file;
           emits_all ]
     | intros ? ]).
  intros st. unfold bind, ask, request.
  match goal with
  | |- context [guard_ok ?b] => destruct (guard_ok b)
  end; simpl.
  - eexists. split; [reflexivity |]. by intros src dst _.
  - eexists. split; [reflexivity |].
    intros src dst [= <- _]%list_elem_of_singleton. reflexivity.
Qed.

(** X18. A run that ends in an exception has delivered no installer,
    unless the exception is the failure to remove the work directory
    afterwards: if the run asked for the copy at all, either the
    exception is the error of that very copy, or the removal of the work
    directory failed and the exception is the error of the removal. *)
Theorem failed_run_delivers_nothing w bitness repo_root st e :
  (run w bitness repo_root st).1 = Raised e →
  ∃ evs,
    trace (run w bitness repo_root st).2 = trace st ++ evs
    ∧ ∀ src dst, EvCopy src dst ∈ evs →
        e = OSError src
        ∨ ∃ work_dir pre,
            evs = pre ++ [EvRmtree work_dir]
            ∧ rmtree_ok w (trace st ++ pre) work_dir = false
            ∧ e = OSError work_dir.
Proof.
  destruct (run w bitness repo_root st) as [out st'] eqn:Hrun. simpl.
  intros ->.
  apply run_inv in Hrun
    as [(_ & _ & ->) | (wd & o1 & s1 & Hsome & Hbody & Htr & Ho1)].
  { exists []. rewrite app_nil_r. split; [done |].
    intros src dst Hin. by apply elem_of_nil in Hin. }
  destruct (copies_or_fails_run_body w bitness repo_root wd
              (record (EvMkdtemp wd) st)) as (evs & Hevs & Hcopy).
  rewrite Hbody in Hevs, Hcopy. simpl in Hevs, Hcopy.
  exists (EvMkdtemp wd :: evs ++ [EvRmtree wd]).
  assert (trace s1 = trace st ++ EvMkdtemp wd :: evs) as Hs1.
  { rewrite Hevs, <- app_assoc. done. }
  split; [rewrite Htr, Hs1, <- app_assoc; done |].
  intros src dst Hin.
  destruct (rmtree_ok w (trace s1) wd) eqn:Hrm.
  - left. destruct o1 as [name | e1]; [by destruct Ho1 |].
    injection Ho1 as ->.
    apply elem_of_cons in Hin as [[=] | Hin].
    apply elem_of_app in Hin as [Hin | [=]%list_elem_of_singleton].
    by eapply Hcopy.
  - right. injection Ho1 as ->. exists wd, (EvMkdtemp wd :: evs).
    split; [done |]. by rewrite <- Hs1.
Qed.

Lemma failed_run_delivers_nothing_witness :
  let w := broken_world true false in
  ∃ evs,
    trace (run w "64" "repo" init).2 = trace init ++ evs
    ∧ ∀ src dst, EvCopy src dst ∈ evs →
        OSError (sample_join "tmp1.mu-pynsist"
                   ["build"; "nsis"; "Foo_1.2.3_win64.exe"])
        = OSError src
        ∨ ∃ work_dir pre,
            evs = pre ++ [EvRmtree work_dir]
            ∧ rmtree_ok w (trace init ++ pre) work_dir = false
            ∧ OSError (sample_join "tmp1.mu-pynsist"
                         ["build"; "nsis"; "Foo_1.2.3_win64.exe"])
              = OSError work_dir.
Proof.
  intros w.
  apply (failed_run_delivers_nothing w "64" "repo" init
           (OSError (sample_join "tmp1.mu-pynsist"
                       ["build"; "nsis"; "Foo_1.2.3_win64.exe"]))).
  vm_compute. reflexivity.
Defined.
